(** * mcp-client: a shallow embedding of the tool dispatcher

    The repository holds iterative variants of one TypeScript program.  The
    two variants with a dynamic catalog ([src/index.ts] and the earlier copy
    with per-tool defaults) are embedded here.  Each of them

    - reads [cfg.mcpServers] from [config.json],
    - builds a catalog of tools by spawning every configured MCP server
      ([getToolDefinitions]),
    - asks a ranked list of OpenAI models to choose one tool ([chooseTool]),
    - rebuilds the catalog, spawns the owning server and calls the tool
      ([callMcpTool]).

    They share [getToolDefinitions], [callMcpTool], [main] and the loop of
    [chooseTool]; they differ in the block of [chooseTool] that fills
    default arguments (modules [Index] and [Part001]).  The two older
    programs are embedded as well: the one with a fixed catalog (module
    [Part000]) and the one that plans by keyword (module [PlanFor]).

    The MCP servers and the OpenAI endpoint are outside the program.  They
    are modelled by a [World]: functions that give the reply to a request from
    the history of the run so far, so that a reply may change from one request
    to the next.  The program itself is written in a state-and-error monad
    whose state is that history (a [Trace] of events).  Console output is
    not part of the model. *)

From Stdlib Require Import ZArith Ascii String Lia.
From stdpp Require Import gmap strings list.

#[local] Set Warnings "-register-all".
#[local] Open Scope list_scope.

(* ================================================================= *)
(** ** JSON values *)

(** What [JSON.parse] returns.  Numbers are kept as integers: the program
    only ever tests a number for being zero (JavaScript truthiness).
    An object is a finite map; the program never depends on the order of
    the keys of an argument object. *)
Inductive Json : Type :=
| JNull
| JBool (b : bool)
| JNum (n : Z)
| JStr (s : string)
| JArr (items : list Json)
| JObj (fields : gmap string Json).

(** The value of [call.function.arguments] at run time.  The OpenAI SDK
    types it as [string] (JSON text written by the model).  A text is
    represented by what [JSON.parse] makes of it: [Some v] when it parses
    to [v], [None] when [JSON.parse] throws a [SyntaxError].  With this
    representation [JSON.stringify v] is [ArgsString (Some v)].  The two
    other constructors are the run-time shapes the code tests for with
    [??] and [typeof ... === 'object']. *)
Inductive FnArguments : Type :=
| ArgsNullish
| ArgsString (parsed : option Json)
| ArgsObject (o : gmap string Json).

Definition JSON_stringify (v : Json) : FnArguments := ArgsString (Some v).

(** JavaScript truthiness of a property read [o.k] ([None]: the property
    is absent and the read gives [undefined]). *)
Definition truthy (v : option Json) : bool :=
  match v with
  | None => false
  | Some JNull => false
  | Some (JBool b) => b
  | Some (JNum n) => negb (n =? 0)%Z
  | Some (JStr s) => negb (String.eqb s "")
  | Some (JArr _) => true
  | Some (JObj _) => true
  end.

(* ================================================================= *)
(** ** Errors and results *)

Inductive Error : Type :=
| TransportError                        (* connect / listTools / callTool rejected *)
| ClassifierError                       (* openai.chat.completions.create rejected *)
| TypeError                             (* property access on undefined or null, property
                                           creation on a primitive (strict mode) *)
| SyntaxError                           (* JSON.parse *)
| ZodError                              (* CallToolResultSchema.parse *)
| NoToolProposed                        (* Error('LLM がツール呼び出しを提案しませんでした（全モデル失敗）') *)
| ServerConfigMissing (serverKey : string). (* Error(`サーバ設定が見つかりません: ...`) *)

Inductive Result (A : Type) : Type :=
| Ok (a : A)
| Err (e : Error).
Arguments Ok {A} a.
Arguments Err {A} e.

Definition is_err {A} (r : Result A) : bool :=
  match r with Ok _ => false | Err _ => true end.

(** [JSON.parse] of a run-time value: a non-string is first converted to a
    string, and ["[object Object]"] is not JSON. *)
Definition JSON_parse (a : FnArguments) : Result Json :=
  match a with
  | ArgsString (Some v) => Ok v
  | ArgsString None => Err SyntaxError
  | ArgsObject _ => Err SyntaxError
  | ArgsNullish => Err SyntaxError
  end.

(** [a ?? '{}'] *)
Definition or_empty_object (a : FnArguments) : FnArguments :=
  match a with
  | ArgsNullish => ArgsString (Some (JObj ∅))
  | _ => a
  end.

(* ================================================================= *)
(** ** Data of the program *)

Record ServerConfig : Type := {
  command : string;
  args : list string;
  env : option (list (string * string));
}.

(** [cfg.mcpServers], kept as the list that [Object.entries] enumerates
    (one entry per key, in the object's own property order). *)
Definition MCPServers : Type := list (string * ServerConfig).

(** [cfg.mcpServers[key]] *)
Fixpoint server_lookup (key : string) (servers : MCPServers) : option ServerConfig :=
  match servers with
  | [] => None
  | (k, c) :: rest => if String.eqb k key then Some c else server_lookup key rest
  end.

(** An element of [(await client.listTools()).tools], seen through the cast
    of [getToolDefinitions]. *)
Record Tool : Type := {
  tool_name : string;
  tool_description : string;
  tool_parameters : option Json;
}.

(** An element of [toolDefinitions]. *)
Record ToolDefinition : Type := {
  name : string;
  description : string;
  parameters : option Json;
  serverKey : string;
  toolName : string;
}.

(** An element of the [tools] field sent to the model. *)
Record FunctionTool : Type := {
  fn_name : string;
  fn_description : string;
  fn_parameters : option Json;
}.

(** [response.choices[i].message.tool_calls[j]] *)
Record ToolCall : Type := {
  call_name : string;
  call_arguments : FnArguments;
}.

(** [response.choices[i]]: only [message.tool_calls] is read; [None] is an
    absent (or null) [tool_calls]. *)
Record Choice : Type := {
  tool_calls : option (list ToolCall);
}.

(** The reply to [openai.chat.completions.create]: [None] when the promise
    rejects, else the [choices] array. *)
Definition ChatCompletion : Type := option (list Choice).

(** What [chooseTool] returns. *)
Record Selection : Type := {
  sel_name : string;
  sel_arguments : Json;
}.

(** A segment of [content] in a tool result, after schema validation. *)
Inductive Content : Type :=
| TextContent (text : string)
| ImageContent (data mimeType : string)
| AudioContent (data mimeType : string)
| ResourceContent (uri : string).

(** [c.type] *)
Definition content_type (c : Content) : string :=
  match c with
  | TextContent _ => "text"
  | ImageContent _ _ => "image"
  | AudioContent _ _ => "audio"
  | ResourceContent _ => "resource"
  end.

(** [c.text]; [undefined] (here [None]) on a segment without that field. *)
Definition content_text (c : Content) : option string :=
  match c with
  | TextContent s => Some s
  | _ => None
  end.

(** The reply to [client.callTool]: the promise rejects, or it resolves to a
    value that [CallToolResultSchema.parse] rejects ([CallMalformed]) or
    accepts with the given [content]. *)
Inductive CallToolReply : Type :=
| CallRejected
| CallMalformed
| CallResult (content : list Content).

(* ================================================================= *)
(** ** Events, traces, the world *)

(** A session is one [StdioClientTransport] object; it is named by the
    position of its [EvConnect] event in the trace. *)
Inductive Event : Type :=
| EvConnect (sid : nat) (c : ServerConfig) (ok : bool)
| EvListTools (sid : nat) (reply : option (list Tool))
| EvCallTool (sid : nat) (tool : string) (arguments : Json) (reply : CallToolReply)
| EvClose (sid : nat)
| EvCreate (model question : string) (tools : list FunctionTool) (reply : ChatCompletion).

Definition Trace : Type := list Event.

(** The collaborators.  Each reply may depend on everything that happened
    before the request. *)
Record World : Type := {
  spawn_ok : Trace -> ServerConfig -> bool;
  tools_reply : Trace -> ServerConfig -> option (list Tool);
  call_reply : Trace -> ServerConfig -> string -> Json -> CallToolReply;
  completion : Trace -> string -> string -> list FunctionTool -> ChatCompletion;
}.

(** Sessions that are open after an event, given those open before it.  A
    connect that fails leaves no subprocess: the SDK's [Client.connect]
    closes the transport before it rethrows. *)
Definition session_step (open : list nat) (e : Event) : list nat :=
  match e with
  | EvConnect sid _ true => open ++ [sid]
  | EvClose sid => filter (fun s => s ≠ sid) open
  | _ => open
  end.

Definition open_sessions (t : Trace) : list nat := fold_left session_step t [].

(** The sessions that were opened, and those that were closed, in order. *)
Fixpoint opened (t : Trace) : list nat :=
  match t with
  | [] => []
  | EvConnect sid _ true :: rest => sid :: opened rest
  | _ :: rest => opened rest
  end.

Fixpoint closed (t : Trace) : list nat :=
  match t with
  | [] => []
  | EvClose sid :: rest => sid :: closed rest
  | _ :: rest => closed rest
  end.

(** The tool calls that were sent, in order. *)
Fixpoint calls_made (t : Trace) : list (string * Json) :=
  match t with
  | [] => []
  | EvCallTool _ tool arguments _ :: rest => (tool, arguments) :: calls_made rest
  | _ :: rest => calls_made rest
  end.

(** The models that were asked, in order. *)
Fixpoint models_asked (t : Trace) : list string :=
  match t with
  | [] => []
  | EvCreate model _ _ _ :: rest => model :: models_asked rest
  | _ :: rest => models_asked rest
  end.

(** The listings that were received, in order. *)
Fixpoint listings (t : Trace) : list (list Tool) :=
  match t with
  | [] => []
  | EvListTools _ (Some tools) :: rest => tools :: listings rest
  | _ :: rest => listings rest
  end.

(** The server configurations that were spawned, in order. *)
Fixpoint spawned (t : Trace) : list ServerConfig :=
  match t with
  | [] => []
  | EvConnect _ c _ :: rest => c :: spawned rest
  | _ :: rest => spawned rest
  end.

(* ================================================================= *)
(** ** The monad: a trace that grows, and exceptions *)

Definition M (A : Type) : Type := Trace -> Result A * Trace.

Definition ret {A} (a : A) : M A := fun t => (Ok a, t).

Definition throw {A} (e : Error) : M A := fun t => (Err e, t).

Definition bind {A B} (m : M A) (k : A -> M B) : M B :=
  fun t =>
    match m t with
    | (Ok a, t') => k a t'
    | (Err e, t') => (Err e, t')
    end.

Definition lift {A} (r : Result A) : M A := fun t => (r, t).

Notation "x <- m ;; k" := (bind m (fun x => k))
  (at level 100, m at next level, right associativity).

(* ================================================================= *)
(** ** Strings: [String.prototype.trim] *)

(** Strings are sequences of code units below 256.  In that range the
    ECMAScript WhiteSpace and LineTerminator code points are TAB, LF, VT, FF,
    CR, SP and NBSP. *)
Definition isWhiteSpace (a : ascii) : bool :=
  match nat_of_ascii a with
  | 9 | 10 | 11 | 12 | 13 | 32 | 160 => true
  | _ => false
  end.

Fixpoint trimStart (s : string) : string :=
  match s with
  | EmptyString => EmptyString
  | String a rest => if isWhiteSpace a then trimStart rest else s
  end.

Fixpoint trimEnd (s : string) : string :=
  match s with
  | EmptyString => EmptyString
  | String a rest =>
      match trimEnd rest with
      | EmptyString => if isWhiteSpace a then EmptyString else String a EmptyString
      | rest' => String a rest'
      end
  end.

Definition trim (s : string) : string := trimEnd (trimStart s).

(* ================================================================= *)
(** ** The transport and the classifier, as the program uses them *)

Section Program.

Variable w : World.
Variable cfg : MCPServers.

(** [new StdioClientTransport(...)] followed by [await client.connect(transport)] *)
Definition connect (c : ServerConfig) : M nat :=
  fun t =>
    let sid := List.length t in
    if spawn_ok w t c
    then (Ok sid, t ++ [EvConnect sid c true])
    else (Err TransportError, t ++ [EvConnect sid c false]).

(** [(await client.listTools()).tools] *)
Definition listTools (sid : nat) (c : ServerConfig) : M (list Tool) :=
  fun t =>
    match tools_reply w t c with
    | Some tools => (Ok tools, t ++ [EvListTools sid (Some tools)])
    | None => (Err TransportError, t ++ [EvListTools sid None])
    end.

(** [await transport.close()]; closing a stdio transport does not reject. *)
Definition close (sid : nat) : M unit :=
  fun t => (Ok tt, t ++ [EvClose sid]).

(** [await client.callTool({ name, arguments })] followed by
    [CallToolResultSchema.parse(raw)] *)
Definition callTool (sid : nat) (c : ServerConfig) (tool : string) (arguments : Json)
  : M CallToolReply :=
  fun t =>
    let reply := call_reply w t c tool arguments in
    match reply with
    | CallRejected => (Err TransportError, t ++ [EvCallTool sid tool arguments reply])
    | _ => (Ok reply, t ++ [EvCallTool sid tool arguments reply])
    end.

Definition CallToolResultSchema_parse (raw : CallToolReply) : Result (list Content) :=
  match raw with
  | CallResult content => Ok content
  | _ => Err ZodError
  end.

(** [await openai.chat.completions.create({ model, messages, tools, tool_choice })] *)
Definition create (model question : string) (tools : list FunctionTool)
  : M (list Choice) :=
  fun t =>
    let reply := completion w t model question tools in
    match reply with
    | Some choices => (Ok choices, t ++ [EvCreate model question tools reply])
    | None => (Err ClassifierError, t ++ [EvCreate model question tools reply])
    end.

(* ================================================================= *)
(** ** 2. getToolDefinitions *)

(** The object built by the [.map((tool) => ...)] callback. *)
Definition tag (serverKey : string) (tool : Tool) : ToolDefinition :=
  {| name := tool_name tool;
     description := tool_description tool;
     parameters := tool_parameters tool;
     serverKey := serverKey;
     toolName := tool_name tool |}.

(** The [for ... of Object.entries(cfg.mcpServers)] loop, with the array
    [toolDefinitions] passed along. *)
Fixpoint getToolDefinitions_loop (entries : MCPServers)
    (toolDefinitions : list ToolDefinition) : M (list ToolDefinition) :=
  match entries with
  | [] => ret toolDefinitions
  | (serverKey, serverConfig) :: rest =>
      sid <- connect serverConfig ;;
      tools <- listTools sid serverConfig ;;
      let toolDefinitions := toolDefinitions ++ map (tag serverKey) tools in
      _ <- close sid ;;
      getToolDefinitions_loop rest toolDefinitions
  end.

Definition getToolDefinitions : M (list ToolDefinition) :=
  getToolDefinitions_loop cfg [].

(* ================================================================= *)
(** ** 4. chooseTool *)

Definition MODEL_CANDIDATES : list string :=
  ["gpt-3.5-turbo-0125"; "gpt-4o-release"].

(** [toolDefinitions.map(({ name, description, parameters }) => ...)] *)
Definition to_function_tool (d : ToolDefinition) : FunctionTool :=
  {| fn_name := name d;
     fn_description := description d;
     fn_parameters := parameters d |}.

(** [response.choices[0].message.tool_calls?.[0]]: reading [message] of a
    missing first choice is a TypeError. *)
Definition first_tool_call (choices : list Choice) : Result (option ToolCall) :=
  match choices with
  | [] => Err TypeError
  | choice :: _ =>
      match tool_calls choice with
      | None => Ok None
      | Some [] => Ok None
      | Some (call :: _) => Ok (Some call)
      end
  end.

(** The variants differ in the body of [if (call) { ... }], which turns
    the accepted call into the returned selection. *)
Section Selector.

Variable accept : ToolCall -> Result Selection.

(** The [for (const model of MODEL_CANDIDATES)] loop and the [throw] after
    it. *)
Fixpoint chooseTool_loop (userQuestion : string)
    (toolDefinitions : list ToolDefinition) (models : list string) : M Selection :=
  match models with
  | [] => throw NoToolProposed
  | model :: rest =>
      choices <- create model userQuestion (map to_function_tool toolDefinitions) ;;
      call <- lift (first_tool_call choices) ;;
      match call with
      | Some call => lift (accept call)
      | None => chooseTool_loop userQuestion toolDefinitions rest
      end
  end.

Definition chooseTool_with (userQuestion : string) : M Selection :=
  toolDefinitions <- getToolDefinitions ;;
  chooseTool_loop userQuestion toolDefinitions MODEL_CANDIDATES.

End Selector.

(* ================================================================= *)
(** ** 5. callMcpTool *)

(** [parsed.content.filter((c) => c.type === 'text').map((c) => c.text.trim())] *)
Definition text_lines (content : list Content) : list string :=
  map (fun c => match content_text c with Some s => trim s | None => "" end)
      (filter (fun c => content_type c = "text") content).

Definition callMcpTool (name' : string) (args' : Json) : M (list string) :=
  toolDefinitions <- getToolDefinitions ;;
  match find (fun d => String.eqb (name d) name') toolDefinitions with
  | None => throw TypeError            (* [def.serverKey] with [def] undefined *)
  | Some def =>
      match server_lookup (serverKey def) cfg with
      | None => throw (ServerConfigMissing (serverKey def))
      | Some server =>
          sid <- connect server ;;
          raw <- callTool sid server (toolName def) args' ;;
          parsed <- lift (CallToolResultSchema_parse raw) ;;
          ret (text_lines parsed)
      end
  end.

(* ================================================================= *)
(** ** 6. main *)

(** [main] (in [src/index.ts] through [executeTool]): the value is the list
    of lines that is printed. *)
Definition main_with (accept : ToolCall -> Result Selection) (question : string)
  : M (list string) :=
  sel <- chooseTool_with accept question ;;
  callMcpTool (sel_name sel) (sel_arguments sel).

End Program.

(** Sequencing of results, for the straight-line code inside [if (call)]. *)
Definition and_then {A B} (r : Result A) (k : A -> Result B) : Result B :=
  match r with
  | Ok a => k a
  | Err e => Err e
  end.

Notation "x <-r r ;; k" := (and_then r (fun x => k))
  (at level 100, r at next level, right associativity).

(* ================================================================= *)
(** ** The variant of [src/index.ts] *)

Module Index.

(** [Object.keys(args).length], for every value [JSON.parse] can return. *)
Definition keys_length (args' : Json) : Result nat :=
  match args' with
  | JNull => Err TypeError
  | JBool _ => Ok 0
  | JNum _ => Ok 0
  | JStr s => Ok (String.length s)
  | JArr items => Ok (List.length items)
  | JObj fields => Ok (size fields)
  end.

(** [args.path = p], as [JSON.stringify] sees [args] afterwards: an object
    gains the key, an array gains a property that is not serialised, and a
    primitive cannot take a property (the module is strict code). *)
Definition set_path (args' : Json) (p : string) : Result Json :=
  match args' with
  | JObj fields => Ok (JObj (<["path" := JStr p]> fields))
  | JArr items => Ok (JArr items)
  | _ => Err TypeError
  end.

Section Variant.

Variable w : World.
Variable cfg : MCPServers.

(** [process.env.DEFAULT_PATH] *)
Variable DEFAULT_PATH : option string.

(** [process.env.DEFAULT_PATH || '/Users/honjo2/Desktop'] *)
Definition default_path : string :=
  match DEFAULT_PATH with
  | Some p => if String.eqb p "" then "/Users/honjo2/Desktop" else p
  | None => "/Users/honjo2/Desktop"
  end.

(** The block [if (typeof call.function.arguments === 'string') { ... }]:
    the new value of [call.function.arguments]. *)
Definition fill_defaults (a : FnArguments) : Result FnArguments :=
  match a with
  | ArgsString _ =>
      args' <-r JSON_parse a ;;
      n <-r keys_length args' ;;
      args' <-r (if Nat.eqb n 0 then set_path args' default_path else Ok args') ;;
      Ok (JSON_stringify args')
  | _ => Ok a
  end.

(** The body of [if (call) { ... }]. *)
Definition accept (call : ToolCall) : Result Selection :=
  a <-r fill_defaults (call_arguments call) ;;
  arguments <-r JSON_parse (or_empty_object a) ;;
  Ok {| sel_name := call_name call; sel_arguments := arguments |}.

(** The argument normalization of this variant as a function of the tool
    name and of the argument mapping the model wrote (as JSON text). *)
Definition normalize (name' : string) (args' : gmap string Json) : Result Selection :=
  accept {| call_name := name'; call_arguments := JSON_stringify (JObj args') |}.

Definition chooseTool (userQuestion : string) : M Selection :=
  chooseTool_with w cfg accept userQuestion.

Definition main (question : string) : M (list string) :=
  main_with w cfg accept question.

End Variant.

End Index.

(* ================================================================= *)
(** ** The earlier variant with per-tool defaults *)

Module Part001.

(** [(call.function.arguments as Record<string, unknown>)?.path]: only an
    object can carry the property; on a string the read gives
    [undefined]. *)
Definition arguments_path (a : FnArguments) : option Json :=
  match a with
  | ArgsObject o => o !! "path"
  | _ => None
  end.

(** [typeof a === 'object' && a ? { ...a } : {}] *)
Definition spread_or_empty (a : FnArguments) : gmap string Json :=
  match a with
  | ArgsObject o => o
  | _ => ∅
  end.

Definition desktopPath : string := "/Users/honjo2/Desktop".

(** [if (!args.k) { args.k = v }] *)
Definition set_if_falsy (k : string) (v : string) (args' : gmap string Json)
  : gmap string Json :=
  if truthy (args' !! k) then args' else <[k := JStr v]> args'.

(** The [if ... else if ...] of [if (call) { ... }]: the new value of
    [call.function.arguments]. *)
Definition fill_defaults (name' : string) (a : FnArguments) : FnArguments :=
  if String.eqb name' "list_directory" && negb (truthy (arguments_path a)) then
    let args' := spread_or_empty a in
    let args' := <["path" := JStr desktopPath]> args' in
    JSON_stringify (JObj args')
  else if String.eqb name' "move_file" then
    let args' := spread_or_empty a in
    let args' := set_if_falsy "source" (desktopPath +:+ "/chromebackup") args' in
    let args' := set_if_falsy "destination" (desktopPath +:+ "/chromebackup2") args' in
    JSON_stringify (JObj args')
  else a.

(** The body of [if (call) { ... }]. *)
Definition accept (call : ToolCall) : Result Selection :=
  let a := fill_defaults (call_name call) (call_arguments call) in
  arguments <-r JSON_parse (or_empty_object a) ;;
  Ok {| sel_name := call_name call; sel_arguments := arguments |}.

(** The argument normalization of this variant as a function of the tool
    name and of the argument mapping the model wrote (as JSON text). *)
Definition normalize (name' : string) (args' : gmap string Json) : Result Selection :=
  accept {| call_name := name'; call_arguments := JSON_stringify (JObj args') |}.

Section Variant.

Variable w : World.
Variable cfg : MCPServers.

Definition chooseTool (userQuestion : string) : M Selection :=
  chooseTool_with w cfg accept userQuestion.

Definition main (question : string) : M (list string) :=
  main_with w cfg accept question.

End Variant.

End Part001.

(* ================================================================= *)
(** ** Reference definitions that follow the specification *)

(** The catalog the specification describes: backends in declaration order,
    each backend's listing in listing order, every capability tagged with
    the key of its backend. *)
Fixpoint catalog_of (entries : MCPServers) (ls : list (list Tool))
  : list ToolDefinition :=
  match entries, ls with
  | (key, _) :: entries', tools :: ls' => map (tag key) tools ++ catalog_of entries' ls'
  | _, _ => []
  end.


(** A tier misses when its reply has a first choice without a tool call. *)
Definition is_miss (reply : ChatCompletion) : bool :=
  match reply with
  | Some choices =>
      match first_tool_call choices with
      | Ok None => true
      | _ => false
      end
  | None => false
  end.

(** The replies of the model, in order. *)
Fixpoint replies (t : Trace) : list ChatCompletion :=
  match t with
  | [] => []
  | EvCreate _ _ _ reply :: rest => reply :: replies rest
  | _ :: rest => replies rest
  end.

(** At every instant of the run at most one session is open. *)
Definition at_most_one_open (t : Trace) : Prop :=
  forall p q, t = p ++ q -> List.length (open_sessions p) <= 1.

(** Every connect happens while no session is open. *)
Definition connects_when_idle (t : Trace) : Prop :=
  forall p sid c ok q, t = p ++ EvConnect sid c ok :: q -> open_sessions p = [].

(* ================================================================= *)
(** ** The shape of a run *)

(** The events one pass of [getToolDefinitions_loop] appends and its
    result, for a pass that starts when the trace has [n] events. *)
Inductive pass : MCPServers -> list ToolDefinition -> nat -> Trace ->
                 Result (list ToolDefinition) -> Prop :=
| pass_done acc n :
    pass [] acc n [] (Ok acc)
| pass_connect_failed key c rest acc n :
    pass ((key, c) :: rest) acc n [EvConnect n c false] (Err TransportError)
| pass_list_failed key c rest acc n :
    pass ((key, c) :: rest) acc n
         [EvConnect n c true; EvListTools n None] (Err TransportError)
| pass_next key c rest acc n tools s r :
    pass rest (acc ++ map (tag key) tools) (3 + n) s r ->
    pass ((key, c) :: rest) acc n
         (EvConnect n c true :: EvListTools n (Some tools) :: EvClose n :: s) r.

(** What a reply makes the loop of [chooseTool] do: [None] to go on with the
    next model, [Some r] to leave the loop with [r]. *)
Definition outcome (accept : ToolCall -> Result Selection) (reply : ChatCompletion)
  : option (Result Selection) :=
  match reply with
  | None => Some (Err ClassifierError)
  | Some choices =>
      match first_tool_call choices with
      | Err e => Some (Err e)
      | Ok (Some call) => Some (accept call)
      | Ok None => None
      end
  end.

(** The events the loop of [chooseTool] appends and its result. *)
Inductive asked (accept : ToolCall -> Result Selection) (question : string)
    (tools : list FunctionTool) : list string -> Trace -> Result Selection -> Prop :=
| asked_all :
    asked accept question tools [] [] (Err NoToolProposed)
| asked_stop model rest reply r :
    outcome accept reply = Some r ->
    asked accept question tools (model :: rest) [EvCreate model question tools reply] r
| asked_next model rest reply s r :
    outcome accept reply = None ->
    asked accept question tools rest s r ->
    asked accept question tools (model :: rest)
          (EvCreate model question tools reply :: s) r.

(** The five ways a run of [callMcpTool] can go. *)
Inductive invocation (cfg : MCPServers) (name' : string) (args' : Json) (n : nat)
  : Trace -> Result (list string) -> Prop :=
| inv_catalog_failed s :
    pass cfg [] n s (Err TransportError) ->
    invocation cfg name' args' n s (Err TransportError)
| inv_unknown_tool defs s :
    pass cfg [] n s (Ok defs) ->
    find (fun d => String.eqb (name d) name') defs = None ->
    invocation cfg name' args' n s (Err TypeError)
| inv_unknown_server defs s def :
    pass cfg [] n s (Ok defs) ->
    find (fun d => String.eqb (name d) name') defs = Some def ->
    server_lookup (serverKey def) cfg = None ->
    invocation cfg name' args' n s (Err (ServerConfigMissing (serverKey def)))
| inv_connect_failed defs s def server :
    pass cfg [] n s (Ok defs) ->
    find (fun d => String.eqb (name d) name') defs = Some def ->
    server_lookup (serverKey def) cfg = Some server ->
    invocation cfg name' args' n
               (s ++ [EvConnect (n + List.length s) server false])
               (Err TransportError)
| inv_called defs s def server reply :
    pass cfg [] n s (Ok defs) ->
    find (fun d => String.eqb (name d) name') defs = Some def ->
    server_lookup (serverKey def) cfg = Some server ->
    invocation cfg name' args' n
               (s ++ [EvConnect (n + List.length s) server true;
                      EvCallTool (n + List.length s) (toolName def) args' reply])
               match reply with
               | CallRejected => Err TransportError
               | CallMalformed => Err ZodError
               | CallResult content => Ok (text_lines content)
               end.

(* ================================================================= *)
(** ** Example configurations and worlds *)

Module Examples.

Definition filesystem : ServerConfig :=
  {| command := "npx";
     args := ["-y"; "@modelcontextprotocol/server-filesystem"; "/Users/honjo2/Desktop"];
     env := None |}.

Definition example_cfg : MCPServers := [("filesystem", filesystem)].

Definition list_directory : Tool :=
  {| tool_name := "list_directory";
     tool_description := "List the entries of a directory";
     tool_parameters := None |}.

Definition move_file : Tool :=
  {| tool_name := "move_file";
     tool_description := "Move or rename a file";
     tool_parameters := None |}.

Definition example_content : list Content :=
  [TextContent "  [FILE] a.txt ";
   ImageContent "iVBORw0KGgo=" "image/png";
   TextContent "[DIR] backup  "].

(** A reply without a tool call (free text only). *)
Definition free_text : ChatCompletion := Some [{| tool_calls := None |}].

(** A reply that calls [tool] with the JSON text of the object [o]. *)
Definition calls (tool : string) (o : gmap string Json) : ChatCompletion :=
  Some [{| tool_calls :=
             Some [{| call_name := tool;
                      call_arguments := JSON_stringify (JObj o) |}] |}].

(** One server with two tools; the first model answers in free text, the
    second calls [list_directory] with an empty argument object. *)
Definition example_world : World :=
  {| spawn_ok := fun _ _ => true;
     tools_reply := fun _ _ => Some [list_directory; move_file];
     call_reply := fun _ _ _ _ => CallResult example_content;
     completion := fun _ model _ _ =>
       if String.eqb model "gpt-3.5-turbo-0125" then free_text
       else calls "list_directory" ∅ |}.

(** As [example_world], but no model ever calls a tool. *)
Definition silent_world : World :=
  {| spawn_ok := fun _ _ => true;
     tools_reply := fun _ _ => Some [list_directory; move_file];
     call_reply := fun _ _ _ _ => CallResult example_content;
     completion := fun _ _ _ _ => free_text |}.

Definition has_listing (t : Trace) : bool :=
  existsb (fun e => match e with EvListTools _ _ => true | _ => false end) t.

(** A server that lists two tools the first time it is asked and only
    [move_file] afterwards; the first model calls [move_file]. *)
Definition changing_world : World :=
  {| spawn_ok := fun _ _ => true;
     tools_reply := fun t _ =>
       if has_listing t then Some [move_file] else Some [list_directory; move_file];
     call_reply := fun _ _ _ _ => CallResult example_content;
     completion := fun _ _ _ _ => calls "move_file" ∅ |}.

(** As [changing_world], but the first model calls [list_directory], which
    the server lists the first time only. *)
Definition vanishing_world : World :=
  {| spawn_ok := fun _ _ => true;
     tools_reply := fun t _ =>
       if has_listing t then Some [move_file] else Some [list_directory; move_file];
     call_reply := fun _ _ _ _ => CallResult example_content;
     completion := fun _ _ _ _ => calls "list_directory" ∅ |}.

(** A server whose [tools/list] request fails. *)
Definition deaf_world : World :=
  {| spawn_ok := fun _ _ => true;
     tools_reply := fun _ _ => None;
     call_reply := fun _ _ _ _ => CallRejected;
     completion := fun _ _ _ _ => free_text |}.

Definition two_servers : MCPServers :=
  [("filesystem", filesystem);
   ("memory", {| command := "npx";
                 args := ["-y"; "@modelcontextprotocol/server-memory"];
                 env := None |})].

End Examples.

(* ================================================================= *)
(** ** The first variant with a model: a fixed catalog *)

(** The earliest copy that asks a model has no aggregation pass:
    [TOOL_DEFINITIONS] is a constant with one entry, [chooseTool] returns
    the call as the model wrote it, and [callMcpTool] looks the name up in
    the constant. *)
Module Part000.

(** The JSON schema of the one tool; the describing texts are kept as the
    bytes of the source file, the program never inspects them. *)
Definition list_directory_parameters : Json :=
  JObj (<["type" := JStr "object"]>
        (<["properties" :=
             JObj {[ "path" :=
                       JObj (<["type" := JStr "string"]>
                             {[ "description" :=
                                  JStr "絶対パス（例: /Users/honjo2/Desktop）" ]}) ]}]>
         {[ "required" := JArr [JStr "path"] ]})).

Definition TOOL_DEFINITIONS : list ToolDefinition :=
  [{| name := "list_directory";
      description := "指定されたパスの直下にあるファイル／ディレクトリ名を列挙する";
      parameters := Some list_directory_parameters;
      serverKey := "filesystem";
      toolName := "list_directory" |}].

(** The body of [if (call) { ... }]. *)
Definition accept (call : ToolCall) : Result Selection :=
  arguments <-r JSON_parse (or_empty_object (call_arguments call)) ;;
  Ok {| sel_name := call_name call; sel_arguments := arguments |}.

Section Variant.

Variable w : World.
Variable cfg : MCPServers.

Definition chooseTool (userQuestion : string) : M Selection :=
  chooseTool_loop w accept userQuestion TOOL_DEFINITIONS MODEL_CANDIDATES.

Definition callMcpTool (name' : string) (args' : Json) : M (list string) :=
  match find (fun d => String.eqb (name d) name') TOOL_DEFINITIONS with
  | None => throw TypeError            (* [def.serverKey] with [def] undefined *)
  | Some def =>
      match server_lookup (serverKey def) cfg with
      | None => throw (ServerConfigMissing (serverKey def))
      | Some server =>
          sid <- connect w server ;;
          raw <- callTool w sid server (toolName def) args' ;;
          parsed <- lift (CallToolResultSchema_parse raw) ;;
          ret (text_lines parsed)
      end
  end.

Definition main (question : string) : M (list string) :=
  sel <- chooseTool question ;;
  callMcpTool (sel_name sel) (sel_arguments sel).

End Variant.

End Part000.

(* ================================================================= *)
(** ** The variant without a model: [planFor] *)

(** The second program of [src/index.ts] chooses the tool by a keyword test
    on the question.  A question is kept here as its sequence of UTF-16
    code units, which is what [String.prototype.includes] compares. *)
Module PlanFor.

(** [hay.startsWith(needle)] *)
Fixpoint starts_with (needle hay : list N) : bool :=
  match needle, hay with
  | [], _ => true
  | _ :: _, [] => false
  | a :: needle', b :: hay' => N.eqb a b && starts_with needle' hay'
  end.

(** [hay.includes(needle)] *)
Fixpoint includes (hay needle : list N) : bool :=
  match hay with
  | [] => starts_with needle []
  | _ :: rest => starts_with needle hay || includes rest needle
  end.

(** ['デスクトップ'] *)
Definition desktop : list N :=
  [0x30C7; 0x30B9; 0x30AF; 0x30C8; 0x30C3; 0x30D7]%N.

(** ['デスクトップにあるファイルのファイル名をリスト化して'] *)
Definition default_question : list N :=
  [12487; 12473; 12463; 12488; 12483; 12503; 12395; 12354; 12427; 12501;
   12449; 12452; 12523; 12398; 12501; 12449; 12452; 12523; 21517; 12434;
   12522; 12473; 12488; 21270; 12375; 12390]%N.

Record Plan : Type := {
  plan_serverKey : string;
  plan_toolName : string;
  plan_toolArgs : gmap string Json;
}.

(** What this program throws: its own two errors, or an error of the
    transport. *)
Inductive Failure : Type :=
| PlanNotFound (question : list N)       (* Error(`質問に対応する MCP サーバ／ツールが見つかりません: ...`) *)
| ServerNotDefined (serverKey : string)  (* Error(`設定に ... の MCP サーバが定義されていません`) *)
| Raised (e : Error).

Inductive Outcome (A : Type) : Type :=
| Returned (a : A)
| Thrown (f : Failure).
Arguments Returned {A} a.
Arguments Thrown {A} f.

Definition planFor (question : list N) : Outcome Plan :=
  if includes question desktop then
    Returned {| plan_serverKey := "filesystem";
                plan_toolName := "list_directory";
                plan_toolArgs := {[ "path" := JStr "/Users/honjo2/Desktop" ]} |}
  else Thrown (PlanNotFound question).

Section Variant.

Variable w : World.
Variable config : MCPServers.

(** The part of [main] after the configuration lookup. *)
Definition call_and_extract (serverConf : ServerConfig) (plan : Plan) : M (list string) :=
  sid <- connect w serverConf ;;
  rawResult <- callTool w sid serverConf (plan_toolName plan) (JObj (plan_toolArgs plan)) ;;
  parsed <- lift (CallToolResultSchema_parse rawResult) ;;
  ret (text_lines parsed).

(** [main]; [argv2] is [process.argv[2]], the value is the list of lines
    that is printed. *)
Definition main (argv2 : option (list N)) : Trace -> Outcome (list string) * Trace :=
  fun t =>
    let userQuestion := match argv2 with Some q => q | None => default_question end in
    match planFor userQuestion with
    | Thrown f => (Thrown f, t)
    | Returned plan =>
        match server_lookup (plan_serverKey plan) config with
        | None => (Thrown (ServerNotDefined (plan_serverKey plan)), t)
        | Some serverConf =>
            match call_and_extract serverConf plan t with
            | (Ok filenames, t') => (Returned filenames, t')
            | (Err e, t') => (Thrown (Raised e), t')
            end
        end
    end.

End Variant.

End PlanFor.

(* ================================================================= *)
(** ** Further predicates on worlds and strings *)

(** A world whose servers start and list their tools in the same way
    whenever they are asked. *)
Definition steady_servers (w : World) : Prop :=
  forall t t' c,
    spawn_ok w t c = spawn_ok w t' c /\ tools_reply w t c = tools_reply w t' c.

(** The requests that were sent to the models, in order. *)
Fixpoint requests (t : Trace) : list (string * list FunctionTool) :=
  match t with
  | [] => []
  | EvCreate _ question tools _ :: rest => (question, tools) :: requests rest
  | _ :: rest => requests rest
  end.


(** A second server that also lists [list_directory]. *)
Module MoreExamples.

Definition shadow : ServerConfig :=
  {| command := "node"; args := ["shadow.js"]; env := None |}.

Definition shadowed_servers : MCPServers :=
  [("filesystem", Examples.filesystem); ("shadow", shadow)].


(** A question that lacks the keyword: the code units of [list files]. *)
Definition other_question : list N :=
  [108; 105; 115; 116; 32; 102; 105; 108; 101; 115]%N.

End MoreExamples.

(* ================================================================= *)
(** ** Tactics *)

(** Splitting a short list at every position. *)
Ltac split_prefix H :=
  repeat match type of H with
         | _ :: _ = ?p ++ _ =>
             destruct p; simpl in H; [| injection H as <- H]
         | [] = ?p ++ _ =>
             destruct p; simpl in H; [| discriminate H]
         end.

(* ================================================================= *)
(** ** Runs of the aggregation pass *)

Section PassFacts.

Variable w : World.

Lemma getToolDefinitions_loop_pass entries :
  forall acc t0 r t1,
    getToolDefinitions_loop w entries acc t0 = (r, t1) ->
    exists s, t1 = t0 ++ s /\ pass entries acc (List.length t0) s r.
Proof.
  induction entries as [|[key c] rest IH]; intros acc t0 r t1 Hrun; simpl in Hrun.
  - inversion Hrun; subst. exists []. rewrite app_nil_r. split; [reflexivity | constructor].
  - unfold bind at 1, connect in Hrun.
    destruct (spawn_ok w t0 c) eqn:Hspawn.
    + unfold bind at 1, listTools in Hrun.
      destruct (tools_reply w (t0 ++ [EvConnect (List.length t0) c true]) c)
        as [tools|] eqn:Htools.
      * unfold bind at 1, close in Hrun.
        apply IH in Hrun. destruct Hrun as [s [Htrace Hpass]].
        exists (EvConnect (List.length t0) c true
                :: EvListTools (List.length t0) (Some tools)
                :: EvClose (List.length t0) :: s).
        split.
        -- rewrite Htrace. rewrite <- !app_assoc. reflexivity.
        -- constructor. rewrite !length_app in Hpass. simpl in Hpass.
           replace (3 + List.length t0) with (List.length t0 + 1 + 1 + 1) by lia.
           exact Hpass.
      * inversion Hrun; subst.
        exists [EvConnect (List.length t0) c true; EvListTools (List.length t0) None].
        rewrite <- app_assoc. split; [reflexivity | constructor].
    + inversion Hrun; subst.
      exists [EvConnect (List.length t0) c false].
      split; [reflexivity | constructor].
Qed.

End PassFacts.

(* ================================================================= *)
(** ** Sessions along a trace *)

Lemma open_sessions_app a b :
  open_sessions (a ++ b) = fold_left session_step b (open_sessions a).
Proof. unfold open_sessions. apply fold_left_app. Qed.

Lemma open_sessions_idle_app a b :
  open_sessions a = [] -> open_sessions (a ++ b) = open_sessions b.
Proof. intros Ha. rewrite open_sessions_app, Ha. reflexivity. Qed.

Lemma close_own_session (sid : nat) : filter (fun s => s ≠ sid) [sid] = [].
Proof.
  rewrite filter_cons, filter_nil.
  destruct (decide (sid ≠ sid)) as [Hne|_]; [contradiction | reflexivity].
Qed.


Lemma at_most_one_open_nil : at_most_one_open [].
Proof.
  intros p q Hpq. symmetry in Hpq. apply app_eq_nil in Hpq as [-> _].
  simpl. lia.
Qed.

Lemma at_most_one_open_app a b :
  at_most_one_open a -> open_sessions a = [] -> at_most_one_open b ->
  at_most_one_open (a ++ b).
Proof.
  intros Ha Hidle Hb p q Hpq.
  apply app_eq_app in Hpq as [k [[-> ->] | [-> ->]]].
  - apply (Ha p k). reflexivity.
  - rewrite (open_sessions_idle_app _ _ Hidle). apply (Hb k q). reflexivity.
Qed.

Lemma connects_when_idle_nil : connects_when_idle [].
Proof. intros p sid c ok q Hpq. destruct p; discriminate. Qed.

Lemma connects_when_idle_app a b :
  connects_when_idle a -> open_sessions a = [] -> connects_when_idle b ->
  connects_when_idle (a ++ b).
Proof.
  intros Ha Hidle Hb p sid c ok q Hpq.
  apply app_eq_app in Hpq as [k [[-> Hk] | [-> Hk]]].
  - destruct k as [|e k].
    + rewrite app_nil_r in Hidle. exact Hidle.
    + injection Hk as <- _. apply (Ha p sid c ok k). reflexivity.
  - rewrite (open_sessions_idle_app _ _ Hidle). apply (Hb k sid c ok q). exact Hk.
Qed.

Lemma at_most_one_open_round sid c reply :
  at_most_one_open [EvConnect sid c true; EvListTools sid reply; EvClose sid].
Proof.
  intros p q Hpq. split_prefix Hpq; unfold open_sessions; simpl;
    rewrite ?close_own_session; simpl; lia.
Qed.

(* ================================================================= *)
(** ** Projections of a trace *)

Lemma listings_app a b : listings (a ++ b) = listings a ++ listings b.
Proof.
  induction a as [|e a IH]; [reflexivity|].
  destruct e as [| ? [?|] | | |]; simpl; rewrite IH; reflexivity.
Qed.

Lemma spawned_app a b : spawned (a ++ b) = spawned a ++ spawned b.
Proof.
  induction a as [|e a IH]; [reflexivity|].
  destruct e; simpl; rewrite IH; reflexivity.
Qed.



(* ================================================================= *)
(** ** What a pass of the aggregation loop does *)

Lemma pass_sessions entries acc n s r :
  pass entries acc n s r ->
  at_most_one_open s /\ connects_when_idle s /\
  (is_err r = false -> open_sessions s = []).
Proof.
  induction 1 as [acc n | key c rest acc n | key c rest acc n
                 | key c rest acc n tools s r Hpass [IHone [IHidle IHend]]].
  - split; [apply at_most_one_open_nil|].
    split; [apply connects_when_idle_nil | reflexivity].
  - split; [|split].
    + intros p q Hpq. split_prefix Hpq; unfold open_sessions; simpl; lia.
    + intros p sid c' ok q Hpq. split_prefix Hpq; first [discriminate | reflexivity].
    + discriminate.
  - split; [|split].
    + intros p q Hpq. split_prefix Hpq; unfold open_sessions; simpl; lia.
    + intros p sid c' ok q Hpq. split_prefix Hpq; first [discriminate | reflexivity].
    + discriminate.
  - change (EvConnect n c true :: EvListTools n (Some tools) :: EvClose n :: s)
      with ([EvConnect n c true; EvListTools n (Some tools); EvClose n] ++ s).
    assert (Hround : open_sessions [EvConnect n c true; EvListTools n (Some tools); EvClose n] = []).
    { unfold open_sessions. simpl. apply close_own_session. }
    split; [|split].
    + apply at_most_one_open_app; [apply at_most_one_open_round | exact Hround | exact IHone].
    + apply connects_when_idle_app; [| exact Hround | exact IHidle].
      intros p sid c' ok q Hpq.
      split_prefix Hpq; first [discriminate | reflexivity].
    + intros Hok. rewrite (open_sessions_idle_app _ _ Hround). apply IHend, Hok.
Qed.

Lemma pass_catalog entries acc n s r :
  pass entries acc n s r ->
  forall defs, r = Ok defs ->
    defs = acc ++ catalog_of entries (listings s) /\
    List.length (listings s) = List.length entries /\
    spawned s = map snd entries.
Proof.
  induction 1 as [acc n | key c rest acc n | key c rest acc n
                 | key c rest acc n tools s r Hpass IH]; intros defs Hr.
  - injection Hr as <-. simpl. rewrite app_nil_r. auto.
  - discriminate.
  - discriminate.
  - destruct (IH defs Hr) as [Hdefs [Hlen Hspawn]].
    simpl. rewrite Hdefs, Hlen, Hspawn, <- app_assoc. auto.
Qed.

Lemma pass_asks_no_model entries acc n s r :
  pass entries acc n s r -> models_asked s = [] /\ replies s = [].
Proof. induction 1; simpl; auto. Qed.

(** A pass spawns a prefix of the configured servers, in order. *)
Lemma pass_spawned_prefix entries acc n s r :
  pass entries acc n s r -> exists rest, map snd entries = spawned s ++ rest.
Proof.
  induction 1 as [acc n | key c rest acc n | key c rest acc n
                 | key c rest acc n tools s r Hpass [rest' IH]]; simpl.
  - exists []. reflexivity.
  - exists (map snd rest). reflexivity.
  - exists (map snd rest). reflexivity.
  - exists rest'. rewrite IH. reflexivity.
Qed.


Lemma getToolDefinitions_run w cfg t0 r t1 :
  getToolDefinitions w cfg t0 = (r, t1) ->
  exists s, t1 = t0 ++ s /\ pass cfg [] (List.length t0) s r.
Proof. apply getToolDefinitions_loop_pass. Qed.






(* ================================================================= *)
(** ** Runs of the selection loop *)

Lemma chooseTool_loop_asked w accept question defs models :
  forall t0 r t1,
    chooseTool_loop w accept question defs models t0 = (r, t1) ->
    exists s,
      t1 = t0 ++ s /\
      asked accept question (map to_function_tool defs) models s r.
Proof.
  induction models as [|model rest IH]; intros t0 r t1 Hrun; simpl in Hrun.
  - inversion Hrun; subst. exists []. rewrite app_nil_r. split; [reflexivity | constructor].
  - unfold bind at 1, create in Hrun.
    destruct (completion w t0 model question (map to_function_tool defs))
      as [choices|] eqn:Hreply.
    + unfold bind at 1, lift in Hrun.
      destruct (first_tool_call choices) as [[call|]|e] eqn:Hcall.
      * inversion Hrun; subst. eexists. split; [reflexivity|].
        apply asked_stop. simpl. rewrite Hcall. reflexivity.
      * apply IH in Hrun. destruct Hrun as [s [-> Hasked]].
        exists (EvCreate model question (map to_function_tool defs) (Some choices) :: s).
        rewrite <- app_assoc. split; [reflexivity|].
        apply asked_next; [|exact Hasked]. simpl. rewrite Hcall. reflexivity.
      * inversion Hrun; subst. eexists. split; [reflexivity|].
        apply asked_stop. simpl. rewrite Hcall. reflexivity.
    + inversion Hrun; subst. eexists. split; [reflexivity|].
      apply asked_stop. reflexivity.
Qed.

Lemma outcome_miss accept reply :
  outcome accept reply = None <-> is_miss reply = true.
Proof.
  unfold outcome, is_miss. destruct reply as [choices|]; [|split; discriminate].
  destruct (first_tool_call choices) as [[call|]|e]; split; try discriminate; reflexivity.
Qed.

(** The models are asked in the order of the list, each at most once, and
    nothing but model requests happens in the loop. *)
Lemma asked_models accept question tools models s r :
  asked accept question tools models s r ->
  (exists rest, models = models_asked s ++ rest) /\
  spawned s = [] /\ listings s = [] /\
  (forall o, fold_left session_step s o = o).
Proof.
  induction 1 as [| model rest reply r Hout
                 | model rest reply s r Hout Hasked [[rest' IH] [Hsp [Hli Hop]]]]; simpl.
  - split; [exists []; reflexivity | auto].
  - split; [exists rest; reflexivity | auto].
  - split; [exists rest'; rewrite IH; reflexivity | auto].
Qed.


(** The loop fails with [NoToolProposed] exactly when every model of the
    list was asked and every reply was a miss. *)
Lemma asked_all_missed accept question tools models s r :
  (forall call, accept call <> Err NoToolProposed) ->
  asked accept question tools models s r ->
  r = Err NoToolProposed <->
  (models_asked s = models /\ forallb is_miss (replies s) = true).
Proof.
  intros Haccept.
  induction 1 as [| model rest reply r Hout
                 | model rest reply s r Hout Hasked IH]; simpl.
  - split; auto.
  - split.
    + intros ->. exfalso.
      unfold outcome in Hout. destruct reply as [choices|]; [|discriminate].
      destruct (first_tool_call choices) as [[call|]|e] eqn:Hcall; try discriminate.
      * injection Hout as Hout. exact (Haccept call Hout).
      * injection Hout as ->.
        destruct choices as [|[[[|c l]|]] ?]; discriminate.
    + intros [_ Hmiss]. exfalso.
      apply andb_prop in Hmiss as [Hmiss _].
      apply (proj2 (outcome_miss accept reply)) in Hmiss. congruence.
  - apply (proj1 (outcome_miss accept reply)) in Hout. rewrite Hout. simpl.
    rewrite IH. split.
    + intros [-> Hmiss]. auto.
    + intros [Hmodels Hmiss]. injection Hmodels as Hmodels. auto.
Qed.

Lemma pass_failure entries acc n s e :
  pass entries acc n s (Err e) -> e = TransportError.
Proof.
  remember (Err e) as r eqn:Hr. intros Hpass. revert Hr.
  induction Hpass; intros Hr; try discriminate;
    try (injection Hr as <-; reflexivity).
  apply IHHpass, Hr.
Qed.

(** A run of [chooseTool] is an aggregation pass that fails, or one that
    returns a catalog followed by the selection loop over
    [MODEL_CANDIDATES]. *)
Lemma chooseTool_with_run w cfg accept question r t :
  chooseTool_with w cfg accept question [] = (r, t) ->
  (r = Err TransportError /\ pass cfg [] 0 t (Err TransportError)) \/
  (exists defs s1 s2,
      t = s1 ++ s2 /\
      pass cfg [] 0 s1 (Ok defs) /\
      asked accept question (map to_function_tool defs) MODEL_CANDIDATES s2 r).
Proof.
  unfold chooseTool_with, bind. intros Hrun.
  destruct (getToolDefinitions w cfg []) as [[defs|e] t1] eqn:Hagg.
  - right. destruct (getToolDefinitions_run _ _ _ _ _ Hagg) as [s1 [-> Hpass]].
    destruct (chooseTool_loop_asked _ _ _ _ _ _ _ _ Hrun) as [s2 [-> Hasked]].
    exists defs, s1, s2. auto.
  - left. injection Hrun as <- <-.
    destruct (getToolDefinitions_run _ _ _ _ _ Hagg) as [s1 [-> Hpass]].
    pose proof (pass_failure _ _ _ _ _ Hpass) as ->. simpl. auto.
Qed.










(* ================================================================= *)
(** ** Argument defaults *)

(** [src/index.ts]: the argument mapping is returned as the model wrote it,
    except that an empty mapping gets [path]. *)
Lemma Index_normalize_eq DEFAULT_PATH name' (o : gmap string Json) :
  Index.normalize DEFAULT_PATH name' o
  = Ok {| sel_name := name';
          sel_arguments :=
            JObj (if decide (o = ∅)
                  then {[ "path" := JStr (Index.default_path DEFAULT_PATH) ]}
                  else o) |}.
Proof.
  unfold Index.normalize, Index.accept, Index.fill_defaults. simpl.
  destruct (decide (o = ∅)) as [-> | Hne].
  - rewrite map_size_empty. simpl. reflexivity.
  - destruct (size o) as [|n] eqn:Hsize.
    + apply map_size_empty_iff in Hsize. contradiction.
    + simpl. reflexivity.
Qed.

(** [src/index.ts] keeps every argument the model provided. *)
Lemma Index_normalize_keeps_provided DEFAULT_PATH name' (o : gmap string Json) k v :
  o !! k = Some v ->
  exists o',
    Index.normalize DEFAULT_PATH name' o
    = Ok {| sel_name := name'; sel_arguments := JObj o' |} /\
    o' !! k = Some v.
Proof.
  intros Hk. rewrite Index_normalize_eq. eexists. split; [reflexivity|].
  destruct (decide (o = ∅)) as [-> | Hne]; [|exact Hk].
  rewrite lookup_empty in Hk. discriminate.
Qed.

(** The earlier variant: for [list_directory] the text the model wrote is
    never read; the result is the default path alone. *)
Lemma Part001_list_directory_text_discarded text :
  Part001.accept {| call_name := "list_directory"; call_arguments := ArgsString text |}
  = Ok {| sel_name := "list_directory";
          sel_arguments := JObj {[ "path" := JStr "/Users/honjo2/Desktop" ]} |}.
Proof. reflexivity. Qed.

(** The same for [move_file]. *)
Lemma Part001_move_file_text_discarded text :
  Part001.accept {| call_name := "move_file"; call_arguments := ArgsString text |}
  = Ok {| sel_name := "move_file";
          sel_arguments :=
            JObj (<["destination" := JStr "/Users/honjo2/Desktop/chromebackup2"]>
                    {[ "source" := JStr "/Users/honjo2/Desktop/chromebackup" ]}) |}.
Proof. reflexivity. Qed.

(** For any other tool the earlier variant returns the mapping as written. *)
Lemma Part001_normalize_other name' (o : gmap string Json) :
  String.eqb name' "list_directory" = false ->
  String.eqb name' "move_file" = false ->
  Part001.normalize name' o = Ok {| sel_name := name'; sel_arguments := JObj o |}.
Proof.
  intros H1 H2. unfold Part001.normalize, Part001.accept, Part001.fill_defaults.
  simpl. rewrite H1, H2. reflexivity.
Qed.

(** C5.  In the earlier variant the defaults override what the model
    provided: a [list_directory] call with [path] set to [/tmp] comes out
    with the default path, and a [move_file] call loses its [source] and
    [destination].  On the same inputs [src/index.ts] returns the arguments
    unchanged. *)
Theorem Part001_defaults_override_provided_arguments :
  Part001.normalize "list_directory" {[ "path" := JStr "/tmp" ]}
  = Ok {| sel_name := "list_directory";
          sel_arguments := JObj {[ "path" := JStr "/Users/honjo2/Desktop" ]} |} /\
  Part001.normalize "move_file"
    (<["destination" := JStr "/tmp/b"]> {[ "source" := JStr "/tmp/a" ]})
  = Ok {| sel_name := "move_file";
          sel_arguments :=
            JObj (<["destination" := JStr "/Users/honjo2/Desktop/chromebackup2"]>
                    {[ "source" := JStr "/Users/honjo2/Desktop/chromebackup" ]}) |} /\
  Index.normalize None "list_directory" {[ "path" := JStr "/tmp" ]}
  = Ok {| sel_name := "list_directory";
          sel_arguments := JObj {[ "path" := JStr "/tmp" ]} |} /\
  Index.normalize None "move_file"
    (<["destination" := JStr "/tmp/b"]> {[ "source" := JStr "/tmp/a" ]})
  = Ok {| sel_name := "move_file";
          sel_arguments :=
            JObj (<["destination" := JStr "/tmp/b"]> {[ "source" := JStr "/tmp/a" ]}) |}.
Proof.
  split; [apply Part001_list_directory_text_discarded|].
  split; [apply Part001_move_file_text_discarded|].
  split; vm_compute; reflexivity.
Qed.

Lemma Index_normalize_twice DEFAULT_PATH name' (o : gmap string Json) :
  exists o',
    Index.normalize DEFAULT_PATH name' o
    = Ok {| sel_name := name'; sel_arguments := JObj o' |} /\
    Index.normalize DEFAULT_PATH name' o'
    = Ok {| sel_name := name'; sel_arguments := JObj o' |}.
Proof.
  rewrite Index_normalize_eq. eexists. split; [reflexivity|].
  rewrite Index_normalize_eq.
  destruct (decide (o = ∅)) as [-> | Hne].
  - destruct (decide (({[ "path" := JStr (Index.default_path DEFAULT_PATH) ]}
                       : gmap string Json) = ∅)) as [Hempty | _]; [|reflexivity].
    exfalso. exact (insert_non_empty _ _ _ Hempty).
  - destruct (decide (o = ∅)) as [Hempty | _]; [contradiction | reflexivity].
Qed.

Lemma Part001_normalize_twice name' (o : gmap string Json) :
  exists o',
    Part001.normalize name' o
    = Ok {| sel_name := name'; sel_arguments := JObj o' |} /\
    Part001.normalize name' o'
    = Ok {| sel_name := name'; sel_arguments := JObj o' |}.
Proof.
  destruct (String.eqb name' "list_directory") eqn:Hlist.
  - apply String.eqb_eq in Hlist as ->.
    eexists. split; apply Part001_list_directory_text_discarded.
  - destruct (String.eqb name' "move_file") eqn:Hmove.
    + apply String.eqb_eq in Hmove as ->.
      eexists. split; apply Part001_move_file_text_discarded.
    + exists o. split; apply Part001_normalize_other; assumption.
Qed.

(** C6.  In both variants, normalizing the arguments a second time changes
    nothing: for every tool name and every argument mapping the
    normalization returns a mapping, and that mapping is returned unchanged
    when it is normalized again. *)
Theorem normalize_idempotent DEFAULT_PATH name' (o : gmap string Json) :
  (exists o',
      Index.normalize DEFAULT_PATH name' o
      = Ok {| sel_name := name'; sel_arguments := JObj o' |} /\
      Index.normalize DEFAULT_PATH name' o'
      = Ok {| sel_name := name'; sel_arguments := JObj o' |}) /\
  (exists o',
      Part001.normalize name' o
      = Ok {| sel_name := name'; sel_arguments := JObj o' |} /\
      Part001.normalize name' o'
      = Ok {| sel_name := name'; sel_arguments := JObj o' |}).
Proof.
  split; [apply Index_normalize_twice | apply Part001_normalize_twice].
Qed.



(* ================================================================= *)
(** ** Runs of the invocation *)

Lemma opened_app a b : opened (a ++ b) = opened a ++ opened b.
Proof.
  induction a as [|e a IH]; [reflexivity|].
  destruct e as [? ? [|] | | | |]; simpl; rewrite IH; reflexivity.
Qed.

Lemma closed_app a b : closed (a ++ b) = closed a ++ closed b.
Proof.
  induction a as [|e a IH]; [reflexivity|].
  destruct e; simpl; rewrite IH; reflexivity.
Qed.

Lemma calls_made_app a b : calls_made (a ++ b) = calls_made a ++ calls_made b.
Proof.
  induction a as [|e a IH]; [reflexivity|].
  destruct e; simpl; rewrite IH; reflexivity.
Qed.

Lemma pass_calls_no_tool entries acc n s r :
  pass entries acc n s r -> calls_made s = [].
Proof. induction 1; simpl; auto. Qed.

(** A pass that returns a catalog closes every session it opened. *)
Lemma pass_closes_what_it_opens entries acc n s r :
  pass entries acc n s r -> is_err r = false -> closed s = opened s.
Proof.
  induction 1 as [acc n | key c rest acc n | key c rest acc n
                 | key c rest acc n tools s r Hpass IH]; simpl; intros Hok;
    try discriminate; [reflexivity|].
  rewrite IH; [reflexivity | exact Hok].
Qed.


Lemma callMcpTool_run w cfg name' args' t0 r t1 :
  callMcpTool w cfg name' args' t0 = (r, t1) ->
  exists s, t1 = t0 ++ s /\ invocation cfg name' args' (List.length t0) s r.
Proof.
  unfold callMcpTool. unfold bind at 1. intros Hrun.
  destruct (getToolDefinitions w cfg t0) as [[defs|e] t] eqn:Hagg;
    destruct (getToolDefinitions_run _ _ _ _ _ Hagg) as [s [-> Hpass]].
  - destruct (find (fun d => String.eqb (name d) name') defs) as [def|] eqn:Hfind.
    + destruct (server_lookup (serverKey def) cfg) as [server|] eqn:Hserver.
      * unfold bind at 1, connect in Hrun.
        destruct (spawn_ok w (t0 ++ s) server).
        -- unfold bind at 1, callTool in Hrun.
           set (sid := List.length (t0 ++ s)) in *.
           set (t2 := (t0 ++ s) ++ [EvConnect sid server true]) in *.
           assert (Hsid : sid = List.length t0 + List.length s)
             by (unfold sid; apply length_app).
           pose proof (inv_called cfg name' args' (List.length t0) defs s def server
                         (call_reply w t2 server (toolName def) args')
                         Hpass Hfind Hserver) as Hinv.
           rewrite <- Hsid in Hinv.
           exists (s ++ [EvConnect sid server true;
                         EvCallTool sid (toolName def) args'
                           (call_reply w t2 server (toolName def) args')]).
           destruct (call_reply w t2 server (toolName def) args') as [| |content] eqn:Hreply;
             unfold bind, lift, ret in Hrun; simpl in Hrun;
             injection Hrun as <- <-; unfold t2;
             (split; [rewrite <- !app_assoc; reflexivity | exact Hinv]).
        -- injection Hrun as <- <-.
           exists (s ++ [EvConnect (List.length (t0 ++ s)) server false]).
           split; [rewrite <- app_assoc; reflexivity|].
           rewrite length_app. eapply inv_connect_failed; eassumption.
      * injection Hrun as <- <-. exists s. split; [reflexivity|].
        eapply inv_unknown_server; eassumption.
    + injection Hrun as <- <-. exists s. split; [reflexivity|].
      eapply inv_unknown_tool; eassumption.
  - injection Hrun as <- <-. exists s. split; [reflexivity|].
    pose proof (pass_failure _ _ _ _ _ Hpass) as ->.
    apply inv_catalog_failed, Hpass.
Qed.




(** Once [callMcpTool] has sent its tool call, the session it opened for
    the call stays open: it is the one session that was opened and never
    closed. *)
Lemma callMcpTool_never_closes w cfg name' args' r t :
  callMcpTool w cfg name' args' [] = (r, t) ->
  calls_made t <> [] ->
  exists sid, opened t = closed t ++ [sid] /\ open_sessions t = [sid].
Proof.
  intros Hrun Hcalls.
  destruct (callMcpTool_run _ _ _ _ _ _ _ Hrun) as [s [-> Hinv]]. simpl in *.
  inversion Hinv as [s' Hpass | defs s' Hpass | defs s' def Hpass
                    | defs s' def server Hpass Hfind Hserver
                    | defs s' def server reply Hpass Hfind Hserver]; subst;
    try (rewrite (pass_calls_no_tool _ _ _ _ _ Hpass) in Hcalls; contradiction).
  - rewrite calls_made_app, (pass_calls_no_tool _ _ _ _ _ Hpass) in Hcalls.
    contradiction.
  - exists (0 + List.length s').
    rewrite opened_app, closed_app, app_nil_r.
    rewrite (pass_closes_what_it_opens _ _ _ _ _ Hpass eq_refl).
    split; [reflexivity|].
    destruct (pass_sessions _ _ _ _ _ Hpass) as [_ [_ Hidle]].
    rewrite open_sessions_app, (Hidle eq_refl). reflexivity.
Qed.

(** C1.  A successful invocation on the example server: the result is
    returned while the session opened for the call (session 3) is still
    open; two sessions were opened and one was closed. *)
Theorem callMcpTool_leaves_session_open :
  fst (callMcpTool Examples.example_world Examples.example_cfg
         "list_directory" (JObj ∅) [])
  = Ok ["[FILE] a.txt"; "[DIR] backup"] /\
  open_sessions (snd (callMcpTool Examples.example_world Examples.example_cfg
                        "list_directory" (JObj ∅) [])) = [3] /\
  opened (snd (callMcpTool Examples.example_world Examples.example_cfg
                 "list_directory" (JObj ∅) [])) = [0; 3] /\
  closed (snd (callMcpTool Examples.example_world Examples.example_cfg
                 "list_directory" (JObj ∅) [])) = [0].
Proof. repeat split; vm_compute; reflexivity. Qed.

(* ================================================================= *)
(** ** A tool name that the catalog does not hold *)

(** C7, as stated, fails: with one configured server, invoking a name that
    the server does not list fails with the TypeError of reading
    [serverKey] of [undefined], and before that failure the re-aggregation
    inside [callMcpTool] has spawned the server. *)
Lemma callMcpTool_unknown_tool_spawns_servers :
  ~ (forall w cfg name' args' defs,
        fst (getToolDefinitions w cfg []) = Ok defs ->
        find (fun d => String.eqb (name d) name') defs = None ->
        is_err (fst (callMcpTool w cfg name' args' [])) = true /\
        spawned (snd (callMcpTool w cfg name' args' [])) = []).
Proof.
  intros Hclaim.
  destruct (Hclaim Examples.example_world Examples.example_cfg "read_file" (JObj ∅)
              _ eq_refl eq_refl) as [_ Hnone].
  discriminate Hnone.
Qed.

Lemma callMcpTool_unknown_tool_error w cfg name' args' t0 defs t1 :
  getToolDefinitions w cfg t0 = (Ok defs, t1) ->
  find (fun d => String.eqb (name d) name') defs = None ->
  callMcpTool w cfg name' args' t0 = (Err TypeError, t1).
Proof.
  intros Hagg Hfind. unfold callMcpTool, bind. rewrite Hagg, Hfind. reflexivity.
Qed.

(** C7, amended.  When the name is absent from the catalog that
    [callMcpTool] has just rebuilt, [callMcpTool] fails, and its run is that
    re-aggregation pass and nothing more: every configured server was
    spawned once for the listing and its session closed again, no session
    is open at the failure, and no tool call was sent. *)
Theorem callMcpTool_unknown_tool_fails_before_invocation w cfg name' args' defs t1 :
  getToolDefinitions w cfg [] = (Ok defs, t1) ->
  find (fun d => String.eqb (name d) name') defs = None ->
  is_err (fst (callMcpTool w cfg name' args' [])) = true /\
  snd (callMcpTool w cfg name' args' []) = t1 /\
  spawned t1 = map snd cfg /\
  closed t1 = opened t1 /\
  open_sessions t1 = [] /\
  calls_made t1 = [].
Proof.
  intros Hagg Hfind.
  rewrite (callMcpTool_unknown_tool_error _ _ _ _ _ _ _ Hagg Hfind). simpl.
  destruct (getToolDefinitions_run _ _ _ _ _ Hagg) as [s [-> Hpass]]. simpl.
  destruct (pass_catalog _ _ _ _ _ Hpass defs eq_refl) as [_ [_ Hspawn]].
  destruct (pass_sessions _ _ _ _ _ Hpass) as [_ [_ Hidle]].
  repeat split.
  - exact Hspawn.
  - exact (pass_closes_what_it_opens _ _ _ _ _ Hpass eq_refl).
  - exact (Hidle eq_refl).
  - exact (pass_calls_no_tool _ _ _ _ _ Hpass).
Qed.

Lemma callMcpTool_unknown_tool_fails_before_invocation_witness :
  is_err (fst (callMcpTool Examples.example_world Examples.example_cfg
                 "read_file" (JObj ∅) [])) = true /\
  open_sessions (snd (callMcpTool Examples.example_world Examples.example_cfg
                        "read_file" (JObj ∅) [])) = [] /\
  calls_made (snd (callMcpTool Examples.example_world Examples.example_cfg
                     "read_file" (JObj ∅) [])) = [].
Proof.
  destruct (callMcpTool_unknown_tool_fails_before_invocation
              Examples.example_world Examples.example_cfg "read_file" (JObj ∅)
              _ _ eq_refl eq_refl)
    as [Herr [Htrace [_ [_ [Hidle Hcalls]]]]].
  rewrite Htrace. auto.
Defined.

(* ================================================================= *)
(** ** The whole request *)


(** A run of [main] is a run of [chooseTool] that fails, or one that
    returns a selection followed by a run of [callMcpTool], which begins
    with a new aggregation pass. *)
Lemma main_with_run w cfg accept question r t :
  main_with w cfg accept question [] = (r, t) ->
  (exists e, r = Err e /\ chooseTool_with w cfg accept question [] = (Err e, t)) \/
  (exists sel t1 s,
      chooseTool_with w cfg accept question [] = (Ok sel, t1) /\
      t = t1 ++ s /\
      invocation cfg (sel_name sel) (sel_arguments sel) (List.length t1) s r).
Proof.
  unfold main_with. unfold bind at 1. intros Hrun.
  destruct (chooseTool_with w cfg accept question []) as [[sel|e] t1] eqn:Hchoose.
  - right. destruct (callMcpTool_run _ _ _ _ _ _ _ Hrun) as [s [-> Hinv]].
    exists sel, t1, s. auto.
  - left. injection Hrun as <- <-. exists e. auto.
Qed.

Lemma asked_sessions accept question tools models s r :
  asked accept question tools models s r ->
  at_most_one_open s /\ connects_when_idle s /\ open_sessions s = [].
Proof.
  induction 1 as [| model rest reply r Hout
                 | model rest reply s r Hout Hasked [IHone [IHidle IHend]]].
  - split; [apply at_most_one_open_nil|].
    split; [apply connects_when_idle_nil | reflexivity].
  - split; [|split; [|reflexivity]].
    + intros p q Hpq. split_prefix Hpq; unfold open_sessions; simpl; lia.
    + intros p sid c ok q Hpq. split_prefix Hpq; discriminate.
  - change (EvCreate model question tools reply :: s)
      with ([EvCreate model question tools reply] ++ s).
    split; [|split].
    + apply at_most_one_open_app; [| reflexivity | exact IHone].
      intros p q Hpq. split_prefix Hpq; unfold open_sessions; simpl; lia.
    + apply connects_when_idle_app; [| reflexivity | exact IHidle].
      intros p sid c ok q Hpq. split_prefix Hpq; discriminate.
    + rewrite open_sessions_idle_app; [exact IHend | reflexivity].
Qed.

Lemma invocation_sessions cfg name' args' n s r :
  invocation cfg name' args' n s r ->
  at_most_one_open s /\ connects_when_idle s.
Proof.
  intros Hinv.
  inversion Hinv as [s' Hpass | defs s' Hpass | defs s' def Hpass
                    | defs s' def server Hpass Hfind Hserver
                    | defs s' def server reply Hpass Hfind Hserver]; subst;
    destruct (pass_sessions _ _ _ _ _ Hpass) as [Hone [Hidle Hend]];
    try (split; assumption).
  - split.
    + apply at_most_one_open_app; [exact Hone | exact (Hend eq_refl) |].
      intros p q Hpq. split_prefix Hpq; unfold open_sessions; simpl; lia.
    + apply connects_when_idle_app; [exact Hidle | exact (Hend eq_refl) |].
      intros p sid c ok q Hpq. split_prefix Hpq; first [discriminate | reflexivity].
  - split.
    + apply at_most_one_open_app; [exact Hone | exact (Hend eq_refl) |].
      intros p q Hpq. split_prefix Hpq; unfold open_sessions; simpl; lia.
    + apply connects_when_idle_app; [exact Hidle | exact (Hend eq_refl) |].
      intros p sid c ok q Hpq. split_prefix Hpq; first [discriminate | reflexivity].
Qed.

(** Over a whole request at most one session is open at every instant. *)
Lemma main_with_one_session_at_a_time w cfg accept question :
  at_most_one_open (snd (main_with w cfg accept question [])) /\
  connects_when_idle (snd (main_with w cfg accept question [])).
Proof.
  destruct (main_with w cfg accept question []) as [r t] eqn:Hrun. simpl.
  destruct (main_with_run _ _ _ _ _ _ Hrun)
    as [[e [-> Hchoose]] | [sel [t1 [s [Hchoose [-> Hinv]]]]]];
    destruct (chooseTool_with_run _ _ _ _ _ _ Hchoose)
      as [[Herr Hpass] | [defs [s1 [s2 [-> [Hpass Hasked]]]]]];
    try discriminate.
  - destruct (pass_sessions _ _ _ _ _ Hpass) as [Hone [Hidle _]]. auto.
  - destruct (pass_sessions _ _ _ _ _ Hpass) as [Hone [Hidle Hend]].
    destruct (asked_sessions _ _ _ _ _ _ Hasked) as [Hone2 [Hidle2 Hend2]].
    split.
    + apply at_most_one_open_app; auto.
    + apply connects_when_idle_app; auto.
  - destruct (pass_sessions _ _ _ _ _ Hpass) as [Hone [Hidle Hend]].
    destruct (asked_sessions _ _ _ _ _ _ Hasked) as [Hone2 [Hidle2 Hend2]].
    destruct (invocation_sessions _ _ _ _ _ _ Hinv) as [Hone3 Hidle3].
    assert (Hend12 : open_sessions (s1 ++ s2) = []).
    { rewrite open_sessions_idle_app; auto. }
    split.
    + apply at_most_one_open_app; [apply at_most_one_open_app | |]; auto.
    + apply connects_when_idle_app; [apply connects_when_idle_app | |]; auto.
Qed.



(* ================================================================= *)
(** * Further properties of the code *)

(* ================================================================= *)
(** ** The aggregation pass: failures and the catalog *)




Lemma server_lookup_key key (servers : MCPServers) :
  key ∈ map fst servers -> exists c, server_lookup key servers = Some c.
Proof.
  induction servers as [|[k c] rest IH]; simpl; intros Hin.
  - apply elem_of_nil in Hin. contradiction.
  - destruct (String.eqb k key) eqn:Hk; [eauto|].
    apply elem_of_cons in Hin as [-> | Hin]; [|exact (IH Hin)].
    rewrite String.eqb_refl in Hk. discriminate.
Qed.

Lemma catalog_of_entry entries :
  forall ls d,
    d ∈ catalog_of entries ls ->
    toolName d = name d /\ serverKey d ∈ map fst entries.
Proof.
  induction entries as [|[key c] rest IH]; intros [|tools ls] d Hin; simpl in Hin;
    try (apply elem_of_nil in Hin; contradiction).
  apply elem_of_app in Hin as [Hin | Hin].
  - apply list_elem_of_fmap in Hin as [tool [-> _]]. simpl.
    split; [reflexivity | apply elem_of_cons; auto].
  - destruct (IH _ _ Hin) as [Hname Hkey]. simpl.
    split; [exact Hname | apply elem_of_cons; auto].
Qed.

(** X2.  Every entry of a catalog that [getToolDefinitions] returns names a
    server of the configuration ([cfg.mcpServers[serverKey]] is defined),
    and its [toolName] is its [name]. *)
Theorem getToolDefinitions_entries_resolve w cfg t0 defs t1 d :
  getToolDefinitions w cfg t0 = (Ok defs, t1) ->
  d ∈ defs ->
  toolName d = name d /\ exists server, server_lookup (serverKey d) cfg = Some server.
Proof.
  intros Hrun Hin.
  destruct (getToolDefinitions_run _ _ _ _ _ Hrun) as [s [-> Hpass]].
  destruct (pass_catalog _ _ _ _ _ Hpass defs eq_refl) as [Hdefs _].
  simpl in Hdefs. rewrite Hdefs in Hin.
  destruct (catalog_of_entry _ _ _ Hin) as [Hname Hkey].
  split; [exact Hname | exact (server_lookup_key _ _ Hkey)].
Qed.

Lemma getToolDefinitions_entries_resolve_witness :
  exists server,
    server_lookup "filesystem" Examples.example_cfg = Some server.
Proof.
  destruct (getToolDefinitions_entries_resolve
              Examples.example_world Examples.example_cfg [] _ _
              (tag "filesystem" Examples.move_file) eq_refl) as [_ Hserver].
  - apply elem_of_cons. right. apply elem_of_cons. left. reflexivity.
  - exact Hserver.
Defined.

(** X3.  [callMcpTool] never throws its own error "server configuration
    not found": the definition it finds comes from the catalog it has just
    built from the configuration, so the lookup of its [serverKey]
    succeeds. *)
Theorem callMcpTool_never_misses_server w cfg name' args' t0 key :
  fst (callMcpTool w cfg name' args' t0) <> Err (ServerConfigMissing key).
Proof.
  destruct (callMcpTool w cfg name' args' t0) as [r t1] eqn:Hrun. simpl.
  destruct (callMcpTool_run _ _ _ _ _ _ _ Hrun) as [s [-> Hinv]].
  inversion Hinv as [s' Hpass | defs s' Hpass | defs s' def Hpass Hfind Hserver
                    | defs s' def server Hpass Hfind Hserver
                    | defs s' def server reply Hpass Hfind Hserver]; subst;
    try discriminate.
  - destruct (pass_catalog _ _ _ _ _ Hpass defs eq_refl) as [Hdefs _].
    simpl in Hdefs. apply find_some in Hfind as [Hin _].
    apply list_elem_of_In in Hin. rewrite Hdefs in Hin.
    destruct (catalog_of_entry _ _ _ Hin) as [_ Hkey].
    destruct (server_lookup_key _ _ Hkey) as [c Hc]. congruence.
  - destruct reply; discriminate.
Qed.

Lemma callMcpTool_never_misses_server_witness :
  fst (callMcpTool Examples.example_world Examples.example_cfg
         "list_directory" (JObj ∅) [])
  <> Err (ServerConfigMissing "filesystem").
Proof.
  exact (callMcpTool_never_misses_server
           Examples.example_world Examples.example_cfg
           "list_directory" (JObj ∅) [] "filesystem").
Defined.

(* ================================================================= *)
(** ** The selection: what the models are shown, what is left behind *)

Lemma requests_app a b : requests (a ++ b) = requests a ++ requests b.
Proof.
  induction a as [|e a IH]; [reflexivity|].
  destruct e; simpl; rewrite IH; reflexivity.
Qed.

Lemma pass_requests entries acc n s r : pass entries acc n s r -> requests s = [].
Proof. induction 1; simpl; auto. Qed.

Lemma asked_requests accept question tools models s r :
  asked accept question tools models s r ->
  Forall (fun request => request = (question, tools)) (requests s) /\
  calls_made s = [] /\ opened s = [] /\ closed s = [].
Proof.
  induction 1 as [| model rest reply r Hout
                 | model rest reply s r Hout Hasked [IH [Hcalls [Hop Hcl]]]]; simpl.
  - auto.
  - repeat split. constructor; [reflexivity | constructor].
  - repeat split; auto.
Qed.

(** X4.  When a server fails to start or to list its tools, [chooseTool]
    fails with that transport error and no model is asked. *)
Theorem chooseTool_asks_no_model_without_catalog w cfg accept userQuestion :
  is_err (fst (getToolDefinitions w cfg [])) = true ->
  chooseTool_with w cfg accept userQuestion []
  = (Err TransportError, snd (getToolDefinitions w cfg [])) /\
  models_asked (snd (chooseTool_with w cfg accept userQuestion [])) = [].
Proof.
  intros Herr. unfold chooseTool_with, bind.
  destruct (getToolDefinitions w cfg []) as [[defs|e] t1] eqn:Hagg; [discriminate|].
  destruct (getToolDefinitions_run _ _ _ _ _ Hagg) as [s [-> Hpass]]. simpl.
  rewrite (pass_failure _ _ _ _ _ Hpass).
  split; [reflexivity | exact (proj1 (pass_asks_no_model _ _ _ _ _ Hpass))].
Qed.

Lemma chooseTool_asks_no_model_without_catalog_witness :
  Index.chooseTool Examples.deaf_world Examples.two_servers None "list" []
  = (Err TransportError,
     snd (getToolDefinitions Examples.deaf_world Examples.two_servers [])).
Proof.
  exact (proj1 (chooseTool_asks_no_model_without_catalog
                  Examples.deaf_world Examples.two_servers (Index.accept None)
                  "list" eq_refl)).
Defined.

(** X5.  Every request that [chooseTool] sends to a model carries the
    user's question and, as its tools, the whole catalog in catalog order
    (servers in configuration order, tools in listing order). *)
Theorem chooseTool_shows_the_catalog w cfg accept userQuestion r t :
  chooseTool_with w cfg accept userQuestion [] = (r, t) ->
  Forall (fun request =>
            request = (userQuestion,
                       map to_function_tool (catalog_of cfg (listings t))))
         (requests t).
Proof.
  intros Hrun.
  destruct (chooseTool_with_run _ _ _ _ _ _ Hrun)
    as [[_ Hpass] | [defs [s1 [s2 [-> [Hpass Hasked]]]]]].
  - rewrite (pass_requests _ _ _ _ _ Hpass). constructor.
  - destruct (pass_catalog _ _ _ _ _ Hpass defs eq_refl) as [Hdefs _].
    destruct (asked_models _ _ _ _ _ _ Hasked) as [_ [_ [Hlist _]]].
    destruct (asked_requests _ _ _ _ _ _ Hasked) as [Hreq _].
    rewrite requests_app, listings_app, (pass_requests _ _ _ _ _ Hpass), Hlist.
    rewrite app_nil_r. simpl in Hdefs. rewrite <- Hdefs. exact Hreq.
Qed.

Lemma chooseTool_shows_the_catalog_witness :
  Forall (fun request =>
            request = ("list",
                       map to_function_tool
                         (catalog_of Examples.two_servers
                            [[Examples.list_directory; Examples.move_file];
                             [Examples.list_directory; Examples.move_file]])))
         (requests (snd (Part001.chooseTool Examples.example_world
                           Examples.two_servers "list" []))).
Proof.
  exact (chooseTool_shows_the_catalog
           Examples.example_world Examples.two_servers Part001.accept "list"
           _ _ eq_refl).
Defined.

(** X6.  When the aggregation pass of [chooseTool] succeeds, [chooseTool]
    spawns every configured server exactly once, in configuration order,
    closes every session it opened, and sends no tool call, whatever the
    models answer. *)
Theorem chooseTool_closes_all_sessions w cfg accept userQuestion :
  is_err (fst (getToolDefinitions w cfg [])) = false ->
  spawned (snd (chooseTool_with w cfg accept userQuestion [])) = map snd cfg /\
  opened (snd (chooseTool_with w cfg accept userQuestion []))
  = closed (snd (chooseTool_with w cfg accept userQuestion [])) /\
  open_sessions (snd (chooseTool_with w cfg accept userQuestion [])) = [] /\
  calls_made (snd (chooseTool_with w cfg accept userQuestion [])) = [].
Proof.
  intros Hok.
  destruct (chooseTool_with w cfg accept userQuestion []) as [r t] eqn:Hrun.
  assert (Hagg : exists defs t1, getToolDefinitions w cfg [] = (Ok defs, t1)).
  { destruct (getToolDefinitions w cfg []) as [[defs|e] t1]; [eauto | discriminate]. }
  destruct Hagg as [defs [t1 Hagg]].
  unfold chooseTool_with, bind in Hrun. rewrite Hagg in Hrun.
  destruct (getToolDefinitions_run _ _ _ _ _ Hagg) as [s1 [-> Hpass]].
  destruct (chooseTool_loop_asked _ _ _ _ _ _ _ _ Hrun) as [s2 [-> Hasked]].
  simpl in *.
  destruct (pass_catalog _ _ _ _ _ Hpass defs eq_refl) as [_ [_ Hspawn]].
  destruct (pass_sessions _ _ _ _ _ Hpass) as [_ [_ Hidle]].
  destruct (asked_models _ _ _ _ _ _ Hasked) as [_ [Hspawn2 [_ Hstep]]].
  destruct (asked_requests _ _ _ _ _ _ Hasked) as [_ [Hcalls [Hop Hcl]]].
  rewrite spawned_app, opened_app, closed_app, calls_made_app, open_sessions_app.
  rewrite Hspawn, Hspawn2, Hop, Hcl, Hcalls, Hstep, !app_nil_r.
  rewrite (pass_closes_what_it_opens _ _ _ _ _ Hpass eq_refl).
  rewrite (pass_calls_no_tool _ _ _ _ _ Hpass).
  rewrite (Hidle eq_refl). auto.
Qed.

Lemma chooseTool_closes_all_sessions_witness :
  spawned (snd (Index.chooseTool Examples.silent_world Examples.two_servers None
                  "list" []))
  = map snd Examples.two_servers /\
  open_sessions (snd (Index.chooseTool Examples.silent_world Examples.two_servers
                        None "list" [])) = [].
Proof.
  destruct (chooseTool_closes_all_sessions
              Examples.silent_world Examples.two_servers (Index.accept None)
              "list" eq_refl) as [Hspawn [_ [Hidle _]]].
  split; [exact Hspawn | exact Hidle].
Defined.

(* ================================================================= *)
(** ** Accepting a call: edge cases of the arguments *)




(** X8.  In [src/index.ts] a call whose arguments text parses is rejected
    exactly when the text is [null], a boolean, a number or the empty
    string, and then with a TypeError; a text that does not parse is
    rejected with a SyntaxError; and a call without arguments is accepted
    with an empty mapping, to which no default is added. *)
Theorem Index_accept_failures DEFAULT_PATH tool :
  (forall v,
      is_err (Index.accept DEFAULT_PATH
                {| call_name := tool; call_arguments := ArgsString (Some v) |}) = true <->
      v = JNull \/ (exists b, v = JBool b) \/ (exists n, v = JNum n) \/ v = JStr "") /\
  (forall v,
      is_err (Index.accept DEFAULT_PATH
                {| call_name := tool; call_arguments := ArgsString (Some v) |}) = true ->
      Index.accept DEFAULT_PATH
        {| call_name := tool; call_arguments := ArgsString (Some v) |} = Err TypeError) /\
  Index.accept DEFAULT_PATH {| call_name := tool; call_arguments := ArgsString None |}
  = Err SyntaxError /\
  Index.accept DEFAULT_PATH {| call_name := tool; call_arguments := ArgsNullish |}
  = Ok {| sel_name := tool; sel_arguments := JObj ∅ |}.
Proof.
  split; [|split; [|split; reflexivity]].
  - intros v. split.
    + destruct v as [|b|n|s|items|fields]; intros Herr.
      * auto.
      * right. left. eauto.
      * right. right. left. eauto.
      * destruct s as [|a s]; [auto | discriminate].
      * destruct items; discriminate.
      * change (is_err (Index.normalize DEFAULT_PATH tool fields) = true) in Herr.
        rewrite Index_normalize_eq in Herr. discriminate.
    + intros [-> | [[b ->] | [[n ->] | ->]]]; reflexivity.
  - intros v. destruct v as [|b|n|s|items|fields]; intros Herr; try reflexivity.
    + destruct s as [|a s]; [reflexivity | discriminate].
    + destruct items; discriminate.
    + change (is_err (Index.normalize DEFAULT_PATH tool fields) = true) in Herr.
      rewrite Index_normalize_eq in Herr. discriminate.
Qed.

Lemma Index_accept_failures_witness :
  Index.accept None {| call_name := "list_directory";
                       call_arguments := ArgsString (Some (JNum 7)) |}
  = Err TypeError.
Proof.
  apply (proj1 (proj2 (Index_accept_failures None "list_directory"))).
  apply (proj1 (Index_accept_failures None "list_directory")).
  right. right. left. exists 7%Z. reflexivity.
Defined.





(** X10.  In the variant with per-tool defaults, whenever a
    [list_directory] call is accepted, its [path] is the Desktop path,
    whatever the arguments were at run time; and a call that carries an
    object with a truthy [path] is rejected with a SyntaxError. *)
Theorem Part001_list_directory_path a :
  (forall sel,
      Part001.accept {| call_name := "list_directory"; call_arguments := a |} = Ok sel ->
      exists o', sel_arguments sel = JObj o' /\
                 o' !! "path" = Some (JStr "/Users/honjo2/Desktop")) /\
  (forall o,
      a = ArgsObject o -> truthy (o !! "path") = true ->
      Part001.accept {| call_name := "list_directory"; call_arguments := a |}
      = Err SyntaxError).
Proof.
  split.
  - intros sel. unfold Part001.accept, Part001.fill_defaults. simpl.
    destruct (truthy (Part001.arguments_path a)) eqn:Hpath; simpl.
    + destruct a as [|text|o]; try discriminate.
    + intros Hsel. injection Hsel as <-. simpl.
      eexists. split; [reflexivity | apply lookup_insert_eq].
  - intros o -> Hpath. unfold Part001.accept, Part001.fill_defaults. simpl.
    rewrite Hpath. reflexivity.
Qed.

Lemma Part001_list_directory_path_witness :
  Part001.accept {| call_name := "list_directory";
                    call_arguments := ArgsObject {[ "path" := JStr "/tmp" ]} |}
  = Err SyntaxError.
Proof.
  exact (proj2 (Part001_list_directory_path (ArgsObject {[ "path" := JStr "/tmp" ]}))
           {[ "path" := JStr "/tmp" ]} eq_refl eq_refl).
Defined.

(* ================================================================= *)
(** ** The invocation: which call is sent, and where *)

Lemma find_name_eq name' defs def :
  find (fun d => String.eqb (name d) name') defs = Some def -> name def = name'.
Proof.
  intros Hfind. apply find_some in Hfind as [_ Heq].
  apply String.eqb_eq. exact Heq.
Qed.

(** X11.  When [callMcpTool] sends a tool call, it is the only one, it
    goes under the requested name with the arguments unchanged, and it goes
    to the first server, in configuration order, whose listing in the
    re-aggregation holds a tool of that name; that server is spawned once
    more after the pass. *)
Theorem callMcpTool_calls_first_server_listing_the_name w cfg name' args' r t :
  callMcpTool w cfg name' args' [] = (r, t) ->
  calls_made t <> [] ->
  calls_made t = [(name', args')] /\
  exists def server,
    find (fun d => String.eqb (name d) name') (catalog_of cfg (listings t)) = Some def /\
    server_lookup (serverKey def) cfg = Some server /\
    spawned t = map snd cfg ++ [server].
Proof.
  intros Hrun Hcalls.
  destruct (callMcpTool_run _ _ _ _ _ _ _ Hrun) as [s [-> Hinv]]. simpl in *.
  inversion Hinv as [s' Hpass | defs s' Hpass | defs s' def Hpass
                    | defs s' def server Hpass Hfind Hserver
                    | defs s' def server reply Hpass Hfind Hserver]; subst;
    try (rewrite (pass_calls_no_tool _ _ _ _ _ Hpass) in Hcalls; contradiction).
  - rewrite calls_made_app, (pass_calls_no_tool _ _ _ _ _ Hpass) in Hcalls.
    contradiction.
  - destruct (pass_catalog _ _ _ _ _ Hpass defs eq_refl) as [Hdefs [_ Hspawn]].
    simpl in Hdefs.
    assert (Hin : def ∈ catalog_of cfg (listings s')).
    { rewrite <- Hdefs. apply list_elem_of_In. exact (proj1 (find_some _ _ Hfind)). }
    destruct (catalog_of_entry _ _ _ Hin) as [Htool _].
    rewrite calls_made_app, (pass_calls_no_tool _ _ _ _ _ Hpass). simpl.
    rewrite Htool, (find_name_eq _ _ _ Hfind).
    split; [reflexivity|].
    exists def, server.
    rewrite listings_app, spawned_app, Hspawn. simpl. rewrite app_nil_r, <- Hdefs.
    auto.
Qed.

Lemma callMcpTool_calls_first_server_listing_the_name_witness :
  spawned (snd (callMcpTool Examples.example_world MoreExamples.shadowed_servers
                  "list_directory" (JObj ∅) []))
  = map snd MoreExamples.shadowed_servers ++ [Examples.filesystem].
Proof.
  destruct (callMcpTool_calls_first_server_listing_the_name
              Examples.example_world MoreExamples.shadowed_servers
              "list_directory" (JObj ∅) _ _ eq_refl)
    as [_ [def [server [Hfind [Hserver Hspawn]]]]].
  - discriminate.
  - etransitivity; [exact Hspawn|]. f_equal. f_equal.
    vm_compute in Hfind. injection Hfind as <-.
    vm_compute in Hserver. injection Hserver as <-. reflexivity.
Defined.

(** X12.  A request sends at most one tool call, and only after
    [chooseTool] has returned a selection: the call carries the name and the
    arguments of that selection. *)
Theorem main_sends_at_most_one_call w cfg accept question r t :
  main_with w cfg accept question [] = (r, t) ->
  calls_made t = [] \/
  exists sel t1,
    chooseTool_with w cfg accept question [] = (Ok sel, t1) /\
    calls_made t = [(sel_name sel, sel_arguments sel)].
Proof.
  intros Hrun.
  destruct (main_with_run _ _ _ _ _ _ Hrun)
    as [[e [-> Hchoose]] | [sel [t1 [s [Hchoose [-> Hinv]]]]]];
    destruct (chooseTool_with_run _ _ _ _ _ _ Hchoose)
      as [[Herr Hpass] | [defs [s1 [s2 [-> [Hpass Hasked]]]]]];
    try discriminate.
  - left. exact (pass_calls_no_tool _ _ _ _ _ Hpass).
  - left. destruct (asked_requests _ _ _ _ _ _ Hasked) as [_ [Hcalls _]].
    rewrite calls_made_app, (pass_calls_no_tool _ _ _ _ _ Hpass), Hcalls. reflexivity.
  - destruct (asked_requests _ _ _ _ _ _ Hasked) as [_ [Hcalls _]].
    rewrite !calls_made_app, (pass_calls_no_tool _ _ _ _ _ Hpass), Hcalls. simpl.
    inversion Hinv as [s' Hpass' | defs' s' Hpass' | defs' s' def Hpass'
                      | defs' s' def server Hpass' Hfind Hserver
                      | defs' s' def server reply Hpass' Hfind Hserver]; subst;
      try (left; exact (pass_calls_no_tool _ _ _ _ _ Hpass')).
    + left. rewrite calls_made_app, (pass_calls_no_tool _ _ _ _ _ Hpass').
      reflexivity.
    + right. exists sel, (s1 ++ s2). split; [exact Hchoose|].
      destruct (pass_catalog _ _ _ _ _ Hpass' defs' eq_refl) as [Hdefs _].
      simpl in Hdefs.
      assert (Hin : def ∈ catalog_of cfg (listings s')).
      { rewrite <- Hdefs. apply list_elem_of_In. exact (proj1 (find_some _ _ Hfind)). }
      destruct (catalog_of_entry _ _ _ Hin) as [Htool _].
      rewrite calls_made_app, (pass_calls_no_tool _ _ _ _ _ Hpass'). simpl.
      rewrite Htool, (find_name_eq _ _ _ Hfind). reflexivity.
Qed.

Lemma main_sends_at_most_one_call_witness :
  calls_made (snd (Index.main Examples.example_world Examples.example_cfg None
                     "list" []))
  = [("list_directory", JObj {[ "path" := JStr "/Users/honjo2/Desktop" ]})].
Proof.
  destruct (main_sends_at_most_one_call
              Examples.example_world Examples.example_cfg (Index.accept None)
              "list" _ _ eq_refl) as [Hnone | [sel [t1 [Hchoose Hcalls]]]].
  - discriminate Hnone.
  - vm_compute in Hchoose. injection Hchoose as <- _. exact Hcalls.
Defined.

(** X13.  Over a whole request of either variant (aggregation, selection,
    re-aggregation and invocation) at most one session is open at every
    instant, and every server is spawned while no session is open. *)
Theorem main_one_session_at_a_time w cfg DEFAULT_PATH question :
  at_most_one_open (snd (Index.main w cfg DEFAULT_PATH question [])) /\
  connects_when_idle (snd (Index.main w cfg DEFAULT_PATH question [])) /\
  at_most_one_open (snd (Part001.main w cfg question [])) /\
  connects_when_idle (snd (Part001.main w cfg question [])).
Proof.
  destruct (main_with_one_session_at_a_time w cfg (Index.accept DEFAULT_PATH) question).
  destruct (main_with_one_session_at_a_time w cfg Part001.accept question).
  auto.
Qed.

Lemma main_one_session_at_a_time_witness :
  at_most_one_open
    (snd (Index.main Examples.example_world Examples.two_servers None "list" [])) /\
  at_most_one_open
    (snd (Part001.main Examples.vanishing_world Examples.example_cfg "list" [])).
Proof.
  split.
  - exact (proj1 (main_one_session_at_a_time
                    Examples.example_world Examples.two_servers None "list")).
  - exact (proj1 (proj2 (proj2 (main_one_session_at_a_time
                                  Examples.vanishing_world Examples.example_cfg
                                  None "list")))).
Defined.



(* ================================================================= *)
(** ** Servers that always list the same tools *)

Lemma steady_pass w entries :
  steady_servers w ->
  forall acc t0 t0' r r' t1 t1',
    getToolDefinitions_loop w entries acc t0 = (r, t1) ->
    getToolDefinitions_loop w entries acc t0' = (r', t1') ->
    r = r'.
Proof.
  intros Hsteady.
  induction entries as [|[key c] rest IH]; intros acc t0 t0' r r' t1 t1' H1 H2;
    simpl in H1, H2.
  - unfold ret in *. congruence.
  - unfold bind at 1, connect in H1. unfold bind at 1, connect in H2.
    rewrite (proj1 (Hsteady t0 t0' c)) in H1.
    destruct (spawn_ok w t0' c); [|congruence].
    unfold bind at 1, listTools in H1. unfold bind at 1, listTools in H2.
    rewrite (proj2 (Hsteady (t0 ++ [EvConnect (List.length t0) c true])
                      (t0' ++ [EvConnect (List.length t0') c true]) c)) in H1.
    destruct (tools_reply w (t0' ++ [EvConnect (List.length t0') c true]) c)
      as [tools|]; [|congruence].
    unfold bind at 1, close in H1. unfold bind at 1, close in H2.
    exact (IH _ _ _ _ _ _ _ H1 H2).
Qed.

(** X14.  With servers that start and list their tools in the same way
    every time, the catalog rebuilt by [callMcpTool] is the catalog that
    [chooseTool] showed to the models; so a selection that names a tool of
    that catalog is found again, and the request does not fail with the
    TypeError of an unknown tool. *)
Theorem main_finds_chosen_tool_of_steady_servers
    w cfg accept question defs t0 sel t1 r t :
  steady_servers w ->
  getToolDefinitions w cfg [] = (Ok defs, t0) ->
  chooseTool_with w cfg accept question [] = (Ok sel, t1) ->
  main_with w cfg accept question [] = (r, t) ->
  fst (getToolDefinitions w cfg t1) = Ok defs /\
  ((exists d, d ∈ defs /\ name d = sel_name sel) -> r <> Err TypeError).
Proof.
  intros Hsteady Hagg Hchoose Hrun.
  destruct (getToolDefinitions w cfg t1) as [r2 t2] eqn:Hagg2.
  assert (Hsame : Ok defs = r2) by exact (steady_pass _ _ Hsteady _ _ _ _ _ _ _ Hagg Hagg2).
  subst r2. split; [reflexivity|].
  intros [d [Hin Hname]].
  unfold main_with, bind in Hrun. rewrite Hchoose in Hrun.
  unfold callMcpTool in Hrun. unfold bind at 1 in Hrun. rewrite Hagg2 in Hrun.
  destruct (find (fun d0 => String.eqb (name d0) (sel_name sel)) defs)
    as [def|] eqn:Hfind.
  - destruct (server_lookup (serverKey def) cfg) as [server|];
      [|injection Hrun as <- _; discriminate].
    unfold bind at 1, connect in Hrun.
    destruct (spawn_ok w t2 server); [|injection Hrun as <- _; discriminate].
    unfold bind at 1, callTool in Hrun.
    destruct (call_reply w _ server (toolName def) (sel_arguments sel));
      unfold bind, lift, ret in Hrun; simpl in Hrun;
      injection Hrun as <- _; discriminate.
  - exfalso. apply list_elem_of_In in Hin.
    apply (find_none _ _ Hfind) in Hin. simpl in Hin.
    rewrite Hname, String.eqb_refl in Hin. discriminate.
Qed.

Lemma main_finds_chosen_tool_of_steady_servers_witness :
  fst (Index.main Examples.example_world Examples.example_cfg None "list" [])
  <> Err TypeError.
Proof.
  refine (proj2 (main_finds_chosen_tool_of_steady_servers
                   Examples.example_world Examples.example_cfg (Index.accept None)
                   "list" _ _ _ _ _ _ _ eq_refl eq_refl eq_refl) _).
  - intros t t' c. split; reflexivity.
  - exists (tag "filesystem" Examples.list_directory).
    split; [|reflexivity]. apply elem_of_cons. left. reflexivity.
Defined.

(* ================================================================= *)
(** ** The lines that are returned *)










(* ================================================================= *)
(** ** The variant without a model *)

Lemma starts_with_spec needle :
  forall hay, PlanFor.starts_with needle hay = true <-> exists post, hay = needle ++ post.
Proof.
  induction needle as [|a needle IH]; intros hay; simpl.
  - split; [intros _; exists hay; reflexivity | reflexivity].
  - destruct hay as [|b hay].
    + split; [discriminate | intros [post Hpost]; discriminate].
    + split.
      * intros Hsw. apply andb_prop in Hsw as [Hab Hrest].
        apply N.eqb_eq in Hab as ->. apply IH in Hrest as [post ->].
        exists post. reflexivity.
      * intros [post Hpost]. injection Hpost as -> ->.
        rewrite N.eqb_refl. simpl. apply IH. exists post. reflexivity.
Qed.

Lemma includes_spec needle :
  forall hay,
    PlanFor.includes hay needle = true <-> exists pre post, hay = pre ++ needle ++ post.
Proof.
  induction hay as [|b hay IH]; simpl.
  - rewrite starts_with_spec. split.
    + intros [post Hpost]. exists [], post. exact Hpost.
    + intros [pre [post Hpost]]. symmetry in Hpost.
      apply app_eq_nil in Hpost as [-> Hpost]. exists post. symmetry. exact Hpost.
  - split.
    + intros Hinc. apply orb_prop in Hinc as [Hsw | Hinc].
      * apply starts_with_spec in Hsw as [post Hpost]. exists [], post. exact Hpost.
      * apply IH in Hinc as [pre [post ->]]. exists (b :: pre), post. reflexivity.
    + intros [pre [post Hpost]]. apply orb_true_intro.
      destruct pre as [|b' pre].
      * left. apply starts_with_spec. exists post. exact Hpost.
      * right. injection Hpost as _ ->. apply IH. exists pre, post. reflexivity.
Qed.

Lemma planFor_found question :
  (exists pre post, question = pre ++ PlanFor.desktop ++ post) ->
  PlanFor.planFor question
  = PlanFor.Returned
      {| PlanFor.plan_serverKey := "filesystem";
         PlanFor.plan_toolName := "list_directory";
         PlanFor.plan_toolArgs := {[ "path" := JStr "/Users/honjo2/Desktop" ]} |}.
Proof.
  intros Hyes. apply includes_spec in Hyes.
  unfold PlanFor.planFor. rewrite Hyes. reflexivity.
Qed.

Lemma planFor_not_found question :
  (~ exists pre post, question = pre ++ PlanFor.desktop ++ post) ->
  PlanFor.planFor question = PlanFor.Thrown (PlanFor.PlanNotFound question).
Proof.
  intros Hno. unfold PlanFor.planFor.
  destruct (PlanFor.includes question PlanFor.desktop) eqn:Hinc; [|reflexivity].
  apply includes_spec in Hinc. contradiction.
Qed.

(** X17.  [planFor] returns a plan exactly when the question contains the
    keyword somewhere, and the plan is then always the listing of the
    Desktop directory on the [filesystem] server; for every other question
    it throws, and the error carries the question. *)
Theorem planFor_iff_keyword question :
  (PlanFor.planFor question
   = PlanFor.Returned
       {| PlanFor.plan_serverKey := "filesystem";
          PlanFor.plan_toolName := "list_directory";
          PlanFor.plan_toolArgs := {[ "path" := JStr "/Users/honjo2/Desktop" ]} |}
   <-> exists pre post, question = pre ++ PlanFor.desktop ++ post) /\
  (PlanFor.planFor question = PlanFor.Thrown (PlanFor.PlanNotFound question)
   <-> ~ exists pre post, question = pre ++ PlanFor.desktop ++ post).
Proof.
  unfold PlanFor.planFor.
  destruct (PlanFor.includes question PlanFor.desktop) eqn:Hinc.
  - apply includes_spec in Hinc. split.
    + split; [intros _; exact Hinc | reflexivity].
    + split; [discriminate | intros Hno; contradiction].
  - assert (Hno : ~ exists pre post, question = pre ++ PlanFor.desktop ++ post).
    { intros Hyes. apply includes_spec in Hyes. congruence. }
    split.
    + split; [discriminate | intros Hyes; contradiction].
    + split; [intros _; exact Hno | reflexivity].
Qed.

Lemma planFor_iff_keyword_witness :
  exists pre post, PlanFor.default_question = pre ++ PlanFor.desktop ++ post.
Proof.
  exact (proj1 (proj1 (planFor_iff_keyword PlanFor.default_question)) eq_refl).
Defined.

(** X18.  For a question without the keyword, and for a configuration
    without the [filesystem] key, [main] fails before anything happens: no
    server is spawned and the trace is unchanged. *)
Theorem PlanFor_main_fails_before_spawning w config question t0 :
  ((~ exists pre post, question = pre ++ PlanFor.desktop ++ post) ->
   PlanFor.main w config (Some question) t0
   = (PlanFor.Thrown (PlanFor.PlanNotFound question), t0)) /\
  ((exists pre post, question = pre ++ PlanFor.desktop ++ post) ->
   server_lookup "filesystem" config = None ->
   PlanFor.main w config (Some question) t0
   = (PlanFor.Thrown (PlanFor.ServerNotDefined "filesystem"), t0)).
Proof.
  unfold PlanFor.main. split.
  - intros Hno. rewrite (planFor_not_found _ Hno). reflexivity.
  - intros Hyes Hlookup. rewrite (planFor_found _ Hyes). simpl.
    rewrite Hlookup. reflexivity.
Qed.

Lemma PlanFor_main_fails_before_spawning_witness :
  PlanFor.main Examples.example_world Examples.example_cfg
    (Some MoreExamples.other_question) []
  = (PlanFor.Thrown (PlanFor.PlanNotFound MoreExamples.other_question), []) /\
  PlanFor.main Examples.example_world [] (Some PlanFor.default_question) []
  = (PlanFor.Thrown (PlanFor.ServerNotDefined "filesystem"), []).
Proof.
  split.
  - apply (proj1 (PlanFor_main_fails_before_spawning
                    Examples.example_world Examples.example_cfg
                    MoreExamples.other_question [])).
    intros Hyes. apply includes_spec in Hyes. discriminate Hyes.
  - apply (proj2 (PlanFor_main_fails_before_spawning
                    Examples.example_world [] PlanFor.default_question [])).
    + apply includes_spec. reflexivity.
    + reflexivity.
Defined.



(* ================================================================= *)
(** ** The variant with a fixed catalog *)

Lemma Part000_accept_not_exhausted call :
  Part000.accept call <> Err NoToolProposed.
Proof.
  destruct call as [tool [|[v|]|o]]; discriminate.
Qed.

Lemma Part000_chooseTool_run w userQuestion r t :
  Part000.chooseTool w userQuestion [] = (r, t) ->
  asked Part000.accept userQuestion
        (map to_function_tool Part000.TOOL_DEFINITIONS) MODEL_CANDIDATES t r.
Proof.
  intros Hrun.
  destruct (chooseTool_loop_asked _ _ _ _ _ _ _ _ Hrun) as [s [-> Hasked]].
  exact Hasked.
Qed.

(** X20.  In the variant with a fixed catalog [chooseTool] never touches a
    server: it spawns none and sends no tool call; it asks the models in
    ranked order, each at most once, and every request offers exactly the
    one tool of [TOOL_DEFINITIONS] together with the user's question. *)
Theorem Part000_chooseTool_spawns_nothing w userQuestion r t :
  Part000.chooseTool w userQuestion [] = (r, t) ->
  spawned t = [] /\ calls_made t = [] /\
  (exists rest, MODEL_CANDIDATES = models_asked t ++ rest) /\
  Forall (fun request =>
            request = (userQuestion, map to_function_tool Part000.TOOL_DEFINITIONS))
         (requests t).
Proof.
  intros Hrun. apply Part000_chooseTool_run in Hrun.
  destruct (asked_models _ _ _ _ _ _ Hrun) as [Hprefix [Hspawn _]].
  destruct (asked_requests _ _ _ _ _ _ Hrun) as [Hreq [Hcalls _]].
  auto.
Qed.

Lemma Part000_chooseTool_spawns_nothing_witness :
  spawned (snd (Part000.chooseTool Examples.example_world "list" [])) = [] /\
  exists rest,
    MODEL_CANDIDATES
    = models_asked (snd (Part000.chooseTool Examples.example_world "list" [])) ++ rest.
Proof.
  destruct (Part000_chooseTool_spawns_nothing Examples.example_world "list" _ _ eq_refl)
    as [Hspawn [_ [Hprefix _]]].
  split; [exact Hspawn | exact Hprefix].
Defined.

(** X21.  In the variant with a fixed catalog [chooseTool] fails with the
    error "no model proposed a tool call" exactly when every model of
    [MODEL_CANDIDATES] was asked and every reply lacked a tool call; an
    accepted call is returned with the arguments as the model wrote them,
    without any default. *)
Theorem Part000_chooseTool_result w userQuestion r t :
  Part000.chooseTool w userQuestion [] = (r, t) ->
  (r = Err NoToolProposed <->
   models_asked t = MODEL_CANDIDATES /\ forallb is_miss (replies t) = true) /\
  (forall sel,
      r = Ok sel ->
      exists p model question tools choices call,
        t = p ++ [EvCreate model question tools (Some choices)] /\
        first_tool_call choices = Ok (Some call) /\
        sel_name sel = call_name call /\
        JSON_parse (or_empty_object (call_arguments call)) = Ok (sel_arguments sel)).
Proof.
  intros Hrun. apply Part000_chooseTool_run in Hrun. split.
  - exact (asked_all_missed _ _ _ _ _ _ Part000_accept_not_exhausted Hrun).
  - intros sel Hr.
    induction Hrun as [| model rest reply r Hout
                       | model rest reply s r Hout Hasked IH].
    + discriminate.
    + subst r. unfold outcome in Hout. destruct reply as [choices|]; [|discriminate].
      destruct (first_tool_call choices) as [[call|]|e] eqn:Hcall; try discriminate.
      injection Hout as Hout. unfold Part000.accept in Hout.
      destruct (JSON_parse (or_empty_object (call_arguments call))) as [v|e] eqn:Hparse;
        [|discriminate].
      simpl in Hout. injection Hout as <-.
      exists [], model, userQuestion,
             (map to_function_tool Part000.TOOL_DEFINITIONS), choices, call.
      auto.
    + destruct (IH Hr) as [p [model' [question' [tools' [choices [call [-> Hrest]]]]]]].
      exists (EvCreate model userQuestion
                (map to_function_tool Part000.TOOL_DEFINITIONS) reply :: p),
             model', question', tools', choices, call.
      auto.
Qed.

Lemma Part000_chooseTool_result_witness :
  exists call,
    call_name call = "list_directory" /\
    JSON_parse (or_empty_object (call_arguments call)) = Ok (JObj ∅).
Proof.
  destruct (proj2 (Part000_chooseTool_result Examples.example_world "list" _ _ eq_refl)
              _ eq_refl)
    as [p [model [question [tools [choices [call [_ [_ [Hname Hargs]]]]]]]]].
  exists call. split; [symmetry; exact Hname | exact Hargs].
Defined.

Lemma Part000_callMcpTool_eq w cfg name' args' :
  Part000.callMcpTool w cfg name' args'
  = if String.eqb "list_directory" name'
    then match server_lookup "filesystem" cfg with
         | None => throw (ServerConfigMissing "filesystem")
         | Some server =>
             sid <- connect w server ;;
             raw <- callTool w sid server "list_directory" args' ;;
             parsed <- lift (CallToolResultSchema_parse raw) ;;
             ret (text_lines parsed)
         end
    else throw TypeError.
Proof.
  unfold Part000.callMcpTool. cbn [find Part000.TOOL_DEFINITIONS name].
  destruct (String.eqb "list_directory" name'); reflexivity.
Qed.

(** X22.  A request of the variant with a fixed catalog spawns at most one
    server, the one configured under [filesystem], and never closes its
    session; the only tool it ever calls is [list_directory]; and when the
    model names any other tool the request fails with a TypeError without
    spawning a server. *)
Theorem Part000_main_run w cfg question r t :
  Part000.main w cfg question [] = (r, t) ->
  closed t = [] /\
  (spawned t = [] \/
   exists server,
     server_lookup "filesystem" cfg = Some server /\ spawned t = [server]) /\
  (calls_made t = [] \/ exists a, calls_made t = [("list_directory", a)]) /\
  (forall sel t1,
      Part000.chooseTool w question [] = (Ok sel, t1) ->
      sel_name sel <> "list_directory" ->
      r = Err TypeError /\ t = t1 /\ spawned t = []).
Proof.
  unfold Part000.main. unfold bind at 1. intros Hrun.
  destruct (Part000.chooseTool w question []) as [[sel|e] t1] eqn:Hchoose.
  - pose proof (Part000_chooseTool_run _ _ _ _ Hchoose) as Hasked.
    destruct (asked_models _ _ _ _ _ _ Hasked) as [_ [Hspawn _]].
    destruct (asked_requests _ _ _ _ _ _ Hasked) as [_ [Hcalls [_ Hclosed]]].
    rewrite Part000_callMcpTool_eq in Hrun.
    destruct (String.eqb "list_directory" (sel_name sel)) eqn:Hname.
    + assert (Hlist : sel_name sel = "list_directory")
        by (symmetry; apply String.eqb_eq; exact Hname).
      destruct (server_lookup "filesystem" cfg) as [server|] eqn:Hlookup.
      * unfold bind at 1, connect in Hrun.
        destruct (spawn_ok w t1 server).
        -- unfold bind at 1, callTool in Hrun.
           destruct (call_reply w _ server "list_directory" (sel_arguments sel));
             unfold bind, lift, ret in Hrun; simpl in Hrun;
             injection Hrun as <- <-;
             rewrite !closed_app, !spawned_app, !calls_made_app,
                     Hclosed, Hspawn, Hcalls; simpl;
             (split; [reflexivity|]); (split; [right; exists server; auto|]);
             (split; [right; eexists; reflexivity | intros sel' t1' Heq Hne; injection Heq as <- <-; contradiction]).
        -- injection Hrun as <- <-.
           rewrite !closed_app, !spawned_app, !calls_made_app,
                   Hclosed, Hspawn, Hcalls; simpl.
           split; [reflexivity|]. split; [right; exists server; auto|].
           split; [left; reflexivity | intros sel' t1' Heq Hne; injection Heq as <- <-; contradiction].
      * injection Hrun as <- <-.
        split; [exact Hclosed|]. split; [left; exact Hspawn|].
        split; [left; exact Hcalls | intros sel' t1' Heq Hne; injection Heq as <- <-; contradiction].
    + injection Hrun as <- <-.
      split; [exact Hclosed|]. split; [left; exact Hspawn|].
      split; [left; exact Hcalls|].
      intros sel' t1' Heq _. injection Heq as <- <-. auto.
  - injection Hrun as <- <-.
    pose proof (Part000_chooseTool_run _ _ _ _ Hchoose) as Hasked.
    destruct (asked_models _ _ _ _ _ _ Hasked) as [_ [Hspawn _]].
    destruct (asked_requests _ _ _ _ _ _ Hasked) as [_ [Hcalls [_ Hclosed]]].
    split; [exact Hclosed|]. split; [left; exact Hspawn|].
    split; [left; exact Hcalls|].
    intros sel' t1' Heq. discriminate.
Qed.

Lemma Part000_main_run_witness :
  fst (Part000.main Examples.changing_world Examples.example_cfg "move it" [])
  = Err TypeError /\
  spawned (snd (Part000.main Examples.changing_world Examples.example_cfg
                  "move it" [])) = [].
Proof.
  destruct (Part000_main_run Examples.changing_world Examples.example_cfg "move it"
              _ _ eq_refl) as [_ [_ [_ Hother]]].
  destruct (Hother _ _ eq_refl) as [Hr [_ Hspawn]]; [discriminate|].
  split; [exact Hr | exact Hspawn].
Defined.

(* ================================================================= *)
(** ** Accepting twice *)


